(** * MultiProvider (typescript/sdk/src/provider.ts)

    A shallow embedding of the [MultiProvider] class: a registry of
    domains, of one provider and one signer per domain, and of
    per-domain transaction policy.  Methods become computations in a
    small state-and-exception monad over the record of the five maps
    of the class; a thrown exception keeps the mutations made before
    the throw, as in JavaScript.  [getAddress], which only awaits the
    signer's own address derivation, is left out. *)

From Stdlib Require Import ZArith Ascii String.
From stdpp Require Import base option list gmap strings.

Local Open Scope Z_scope.
Local Open Scope string_scope.

(** ** JavaScript [Map] with observable iteration order

    [Array.from(map.keys())] and [Array.from(map.values())] list the
    entries in insertion order, and [map.set] on a key that is already
    present replaces the value in place.  The class iterates only over
    [domains]; that map is an ordered association list.  The other four
    maps are only read and written by key: they are [gmap]s. *)
Module JsMap.

Definition t (V : Type) : Type := list (Z * V).

Definition empty {V} : t V := [].

Fixpoint get {V} (k : Z) (m : t V) : option V :=
  match m with
  | [] => None
  | (k', v) :: m' => if Z.eqb k k' then Some v else get k m'
  end.

Fixpoint set {V} (k : Z) (v : V) (m : t V) : t V :=
  match m with
  | [] => [(k, v)]
  | (k', v') :: m' =>
      if Z.eqb k k' then (k, v) :: m' else (k', v') :: set k v m'
  end.

Definition keys {V} (m : t V) : list Z := map fst m.
Definition values {V} (m : t V) : list V := map snd m.

End JsMap.

(** ** Strings

    [String.prototype.toLowerCase] is a builtin of the language that
    follows the Unicode case mapping.  It is taken as a parameter,
    together with the one fact about it that does not depend on Unicode
    tables: on a string of ASCII characters it lowers the letters A to Z
    and leaves every other character as it is. *)
Definition ascii_toLowerCase (c : ascii) : ascii :=
  let n := N_of_ascii c in
  if ((65 <=? n) && (n <=? 90))%N then ascii_of_N (n + 32) else c.

Fixpoint ascii_lower (s : string) : string :=
  match s with
  | EmptyString => EmptyString
  | String c s' => String (ascii_toLowerCase c) (ascii_lower s')
  end.

Fixpoint is_ascii (s : string) : bool :=
  match s with
  | EmptyString => true
  | String c s' => (N_of_ascii c <? 128)%N && is_ascii s'
  end.

Class JsString : Type := {
  toLowerCase : string → string;
  toLowerCase_ascii : ∀ s, is_ascii s = true → toLowerCase s = ascii_lower s
}.

(** The case mapping restricted to ASCII letters, for the examples. *)
Definition ascii_strings : JsString :=
  {| toLowerCase := ascii_lower; toLowerCase_ascii := λ s _, eq_refl |}.

(** ** Domains and domain references *)

(** Modelled from the spec: [Domain] is declared in ./types, which is not
    part of the sources; a domain is the value [{ id: integer, name: string }]. *)
Record Domain : Type := { id : Z; name : string }.

(** Modelled from the spec: [NameOrDomain] is declared in ./types; a domain
    is referred to by its name (a string) or by its numeric id. *)
Inductive NameOrDomain : Type :=
| Name (s : string)
| Num (n : Z).

(** [ethers.Overrides]: a bag of named transaction parameters. *)
Abbreviation Overrides := (gmap string Z).

(** ** Errors

    Every [throw new Error(...)] of the class, one constructor per throw
    site.  [DomainNotFound] (thrown by [resolveDomain]) and
    [NotFound "Domain"] (thrown by [mustGetFromMap]) carry the same
    message text in the source and differ by where they are raised.
    [ConnectFailed] and [WalletFailed] stand for exceptions raised inside
    the ethers library. *)
Inductive Error : Type :=
| DomainNotFound (nameOrDomain : NameOrDomain)
| NotFound (tname : string) (nameOrDomain : NameOrDomain)
| MissingProvider
| SignerHasNoProvider
| InvariantViolation
| ConnectionNotFound (nameOrDomain : NameOrDomain)
| ConnectFailed
| WalletFailed.

Inductive Outcome (A : Type) : Type :=
| Ok (a : A)
| Throw (e : Error).
Arguments Ok {A} a.
Arguments Throw {A} e.

(** ** The ethers capabilities the class relies on

    [signer_provider s] is [s.provider] ([None] when null or undefined);
    [connect s p] is [s.connect(p)], [None] when the call throws;
    the three constructors are the [new ...] expressions of the class. *)
Class Ethers (Provider Signer : Type) : Type := {
  signer_provider : Signer → option Provider;
  connect : Signer → Provider → option Signer;
  StaticCeloJsonRpcProvider : string → Provider;
  StaticJsonRpcProvider : string → Provider;
  Wallet : string → option Signer
}.

(** ** The registry *)

Record MultiProvider (Provider Signer : Type) : Type := {
  domains : JsMap.t Domain;
  providers : gmap Z Provider;
  signers : gmap Z Signer;
  overrides : gmap Z Overrides;
  confirmations : gmap Z Z
}.
Arguments domains {Provider Signer} _.
Arguments providers {Provider Signer} _.
Arguments signers {Provider Signer} _.
Arguments overrides {Provider Signer} _.
Arguments confirmations {Provider Signer} _.

Section MultiProvider.

Context {Provider Signer : Type} `{!Ethers Provider Signer} {js : JsString}.

Abbreviation State := (MultiProvider Provider Signer).

(** [constructor()] *)
Definition new : State :=
  {| domains := JsMap.empty; providers := ∅; signers := ∅;
     overrides := ∅; confirmations := ∅ |}.

(** *** State and exception monad *)

Definition M (A : Type) : Type := State → Outcome A * State.

Definition ret {A} (a : A) : M A := λ st, (Ok a, st).

Definition bind {A B} (m : M A) (k : A → M B) : M B :=
  λ st, match m st with
        | (Ok a, st') => k a st'
        | (Throw e, st') => (Throw e, st')
        end.

Definition throw {A} (e : Error) : M A := λ st, (Throw e, st).

Definition gets {A} (f : State → A) : M A := λ st, (Ok (f st), st).

Definition modify (f : State → State) : M unit := λ st, (Ok (), f st).

(** [try { m } catch (e) { h }]: the handler runs in the state the
    block left behind. *)
Definition try_catch {A} (m : M A) (h : Error → M A) : M A :=
  λ st, match m st with
        | (Ok a, st') => (Ok a, st')
        | (Throw e, st') => h e st'
        end.

#[global] Instance M_ret : MRet M := @ret.
#[global] Instance M_bind : MBind M := λ A B k m, bind m k.

(** [list.forEach(f)]: stops at the first exception. *)
Fixpoint forEach {A} (l : list A) (f : A → M unit) : M unit :=
  match l with
  | [] => ret ()
  | x :: l' => f x ;; forEach l' f
  end.

(** *** Field updates *)

Definition set_domains (f : JsMap.t Domain → JsMap.t Domain) (st : State) : State :=
  {| domains := f (domains st); providers := providers st; signers := signers st;
     overrides := overrides st; confirmations := confirmations st |}.

Definition set_providers (f : gmap Z Provider → gmap Z Provider) (st : State) : State :=
  {| domains := domains st; providers := f (providers st); signers := signers st;
     overrides := overrides st; confirmations := confirmations st |}.

Definition set_signers (f : gmap Z Signer → gmap Z Signer) (st : State) : State :=
  {| domains := domains st; providers := providers st; signers := f (signers st);
     overrides := overrides st; confirmations := confirmations st |}.

Definition set_overrides (f : gmap Z Overrides → gmap Z Overrides) (st : State) : State :=
  {| domains := domains st; providers := providers st; signers := signers st;
     overrides := f (overrides st); confirmations := confirmations st |}.

Definition set_confirmations (f : gmap Z Z → gmap Z Z) (st : State) : State :=
  {| domains := domains st; providers := providers st; signers := signers st;
     overrides := overrides st; confirmations := f (confirmations st) |}.

(** *** Domain directory *)

Definition registerDomain (domain : Domain) : M unit :=
  modify (set_domains (JsMap.set (id domain) domain)).

Definition domainNumbers (st : State) : list Z := JsMap.keys (domains st).

Definition remoteDomainNumbers (domain : Z) (st : State) : list Z :=
  filter (λ d, d ≠ domain) (domainNumbers st).

Definition domainNames (st : State) : list string :=
  map name (JsMap.values (domains st)).

Definition missingProviders (st : State) : list Z :=
  let numbers := domainNumbers st in
  filter (λ number, is_Some (providers st !! number)) numbers.

Definition resolveDomain (nameOrDomain : NameOrDomain) : M Z :=
  match nameOrDomain with
  | Name s =>
      ds ← gets (λ st,
             filter (λ domain, toLowerCase (name domain) = toLowerCase s)
                    (JsMap.values (domains st)));
      match ds with
      | [] => throw (DomainNotFound nameOrDomain)
      | d0 :: _ => ret (id d0)
      end
  | Num n => ret n
  end.

Definition knownDomain (nameOrDomain : NameOrDomain) : M bool :=
  try_catch (resolveDomain nameOrDomain ;; ret true) (λ _, ret false).

(** *** Generic accessors

    [map] is the field read or written: a lookup function, or an
    update function, on the registry. *)

Definition setMap {T} (nameOrDomain : NameOrDomain) (value : T)
    (map : Z → T → State → State) : M unit :=
  k ← resolveDomain nameOrDomain;
  modify (map k value).

Definition getFromMap {T} (nameOrDomain : NameOrDomain)
    (map : State → Z → option T) : M (option T) :=
  k ← resolveDomain nameOrDomain;
  gets (λ st, map st k).

(** JavaScript truthiness of the values the class stores as objects
    (domains, providers, signers): an object is never falsy. *)
Definition object_truthy {T} (item : T) : bool := true.

(** Truthiness of a number: [0] is falsy. *)
Definition number_truthy (item : Z) : bool := negb (Z.eqb item 0).

(** [truthy] is the truthiness of the language at the type of the
    values of the map: the source tests [!item]. *)
Definition mustGetFromMap {T} (truthy : T → bool) (nameOrDomain : NameOrDomain)
    (map : State → Z → option T) (tname : string) : M T :=
  item ← getFromMap nameOrDomain map;
  match item with
  | None => throw (NotFound tname nameOrDomain)
  | Some item =>
      if truthy item then ret item else throw (NotFound tname nameOrDomain)
  end.

Definition domains_get (st : State) (k : Z) : option Domain := JsMap.get k (domains st).
Definition providers_get (st : State) (k : Z) : option Provider := providers st !! k.
Definition signers_get (st : State) (k : Z) : option Signer := signers st !! k.
Definition overrides_get (st : State) (k : Z) : option Overrides := overrides st !! k.
Definition confirmations_get (st : State) (k : Z) : option Z := confirmations st !! k.

Definition getDomain (nameOrDomain : NameOrDomain) : M (option Domain) :=
  getFromMap nameOrDomain domains_get.

Definition mustGetDomain (nameOrDomain : NameOrDomain) : M Domain :=
  mustGetFromMap object_truthy nameOrDomain domains_get "Domain".

Definition resolveDomainName (nameOrDomain : NameOrDomain) : M (option string) :=
  d ← getDomain nameOrDomain; ret (name <$> d).

Definition mustResolveDomainName (nameOrDomain : NameOrDomain) : M string :=
  d ← mustGetDomain nameOrDomain; ret (name d).

(** *** Connection registry *)

Definition getProvider (nameOrDomain : NameOrDomain) : M (option Provider) :=
  getFromMap nameOrDomain providers_get.

Definition mustGetProvider (nameOrDomain : NameOrDomain) : M Provider :=
  mustGetFromMap object_truthy nameOrDomain providers_get "Provider".

Definition getSigner (nameOrDomain : NameOrDomain) : M (option Signer) :=
  getFromMap nameOrDomain signers_get.

Definition mustGetSigner (nameOrDomain : NameOrDomain) : M Signer :=
  mustGetFromMap object_truthy nameOrDomain signers_get "Signer".

(** [signer.connect(provider)] as a computation that may throw. *)
Definition signer_connect (signer : Signer) (provider : Provider) : M Signer :=
  match connect signer provider with
  | Some s => ret s
  | None => throw ConnectFailed
  end.

Definition unregisterSigner (nameOrDomain : NameOrDomain) : M unit :=
  domain ← resolveDomain nameOrDomain;
  signer ← gets (λ st, signers st !! domain);
  match signer with
  | None => ret ()
  | Some signer =>
      match signer_provider signer with
      | None => throw InvariantViolation
      | Some sp =>
          modify (set_signers (delete domain)) ;;
          p ← getProvider nameOrDomain;
          match p with
          | None => modify (set_providers <[domain := sp]>)
          | Some _ => ret ()
          end
      end
  end.

Definition registerProvider (nameOrDomain : NameOrDomain) (provider : Provider) : M unit :=
  d ← mustGetDomain nameOrDomain;
  let domain := id d in
  try_catch
    (signer ← gets (λ st, signers st !! domain);
     match signer with
     | Some signer =>
         s ← signer_connect signer provider;
         modify (set_signers <[domain := s]>)
     | None => ret ()
     end)
    (λ _, unregisterSigner (Num domain)) ;;
  modify (set_providers <[domain := provider]>).

Definition celoNames : list string := ["alfajores"; "celo"].

Definition is_name (nameOrDomain : NameOrDomain) (s : string) : bool :=
  match nameOrDomain with
  | Name s' => bool_decide (s' = s)
  | Num _ => false
  end.

Definition registerRpcProvider (nameOrDomain : NameOrDomain) (rpc : string) : M unit :=
  domain ← resolveDomain nameOrDomain;
  if existsb (is_name nameOrDomain) celoNames
  then registerProvider (Num domain) (StaticCeloJsonRpcProvider rpc)
  else registerProvider (Num domain) (StaticJsonRpcProvider rpc).

(** How the [try] block of [registerSigner] ends: it stored the bound
    signer and returned from the method, or an exception was caught and
    control falls through with the current value of the local [signer]
    (the block assigns [signer = signer.connect(provider)] before it
    connects a second time for [signers.set]). *)
Inductive TryBind : Type :=
| Returned
| Caught (signer : Signer).

Definition registerSigner_try (domain : Z) (signer : Signer) (provider : Provider)
    : M TryBind :=
  match connect signer provider with
  | None => ret (Caught signer)
  | Some signer1 =>
      match connect signer1 provider with
      | None => ret (Caught signer1)
      | Some signer2 =>
          modify (set_signers <[domain := signer2]>) ;; ret Returned
      end
  end.

(** The statements after the [try] block. *)
Definition registerSigner_fallback (domain : Z) (signer : Signer) : M unit :=
  match signer_provider signer with
  | None => throw SignerHasNoProvider
  | Some p =>
      registerProvider (Num domain) p ;;
      modify (set_signers <[domain := signer]>)
  end.

Definition registerSigner (nameOrDomain : NameOrDomain) (signer : Signer) : M unit :=
  domain ← resolveDomain nameOrDomain;
  provider ← gets (λ st, providers st !! domain);
  match provider, signer_provider signer with
  | None, None => throw MissingProvider
  | Some provider, _ =>
      r ← registerSigner_try domain signer provider;
      match r with
      | Returned => ret ()
      | Caught signer => registerSigner_fallback domain signer
      end
  | None, Some _ => registerSigner_fallback domain signer
  end.

Definition clearSigners : M unit :=
  numbers ← gets domainNumbers;
  forEach numbers (λ domain, unregisterSigner (Num domain)).

Definition registerWalletSigner (nameOrDomain : NameOrDomain) (privkey : string) : M unit :=
  domain ← resolveDomain nameOrDomain;
  match Wallet privkey with
  | None => throw WalletFailed
  | Some wallet => registerSigner (Num domain) wallet
  end.

Definition getConnection (nameOrDomain : NameOrDomain) : M (option (Signer + Provider)) :=
  s ← getSigner nameOrDomain;
  match s with
  | Some s => ret (Some (inl s))
  | None => p ← getProvider nameOrDomain; ret (inr <$> p)
  end.

Definition mustGetConnection (nameOrDomain : NameOrDomain) : M (Signer + Provider) :=
  connection ← getConnection nameOrDomain;
  match connection with
  | None => throw (ConnectionNotFound nameOrDomain)
  | Some c => ret c
  end.

(** *** Policy store *)

Definition registerOverrides (nameOrDomain : NameOrDomain) (o : Overrides) : M unit :=
  setMap nameOrDomain o (λ k v, set_overrides <[k := v]>).

Definition getOverrides (nameOrDomain : NameOrDomain) : M Overrides :=
  o ← getFromMap nameOrDomain overrides_get;
  ret (default ∅ o).

Definition registerConfirmations (nameOrDomain : NameOrDomain) (c : Z) : M unit :=
  setMap nameOrDomain c (λ k v, set_confirmations <[k := v]>).

(** [x || 0] on numbers: a stored [0] is falsy and yields the literal [0]. *)
Definition getConfirmations (nameOrDomain : NameOrDomain) : M Z :=
  c ← getFromMap nameOrDomain confirmations_get;
  ret (match c with
       | Some c => if Z.eqb c 0 then 0 else c
       | None => 0
       end).

End MultiProvider.

(** ** A model of the ethers signers and providers

    [ethers.Wallet] rebinds: [connect] returns a wallet with the same key
    attached to the given provider.  [JsonRpcSigner] is created by a
    provider and its [connect] throws.  The wallet constructor rejects a
    malformed key (here: the empty string). *)
Module EthersModel.

Inductive provider : Type :=
| JsonRpcProvider (url : string)
| CeloJsonRpcProvider (url : string).

Inductive signer : Type :=
| WalletSigner (privkey : string) (attached : option provider)
| JsonRpcSigner (attached : provider) (address : string)
| DetachedSigner (address : string).

Definition provider_of (s : signer) : option provider :=
  match s with
  | WalletSigner _ p => p
  | JsonRpcSigner p _ => Some p
  | DetachedSigner _ => None
  end.

Definition connect_to (s : signer) (p : provider) : option signer :=
  match s with
  | WalletSigner k _ => Some (WalletSigner k (Some p))
  | JsonRpcSigner _ _ => None
  | DetachedSigner _ => None
  end.

Definition new_Wallet (privkey : string) : option signer :=
  if bool_decide (privkey = "") then None else Some (WalletSigner privkey None).

#[global] Instance ethers : Ethers provider signer := {|
  signer_provider := provider_of;
  connect := connect_to;
  StaticCeloJsonRpcProvider := CeloJsonRpcProvider;
  StaticJsonRpcProvider := JsonRpcProvider;
  Wallet := new_Wallet
|}.

End EthersModel.

(** ** The registry as a state machine

    The mutating public methods, as operations; a registry state is
    reachable when a sequence of calls builds it from [new].  A call
    that throws still counts: the state it leaves behind is reachable. *)
Section Reachable.

Context {Provider Signer : Type} `{!Ethers Provider Signer} {js : JsString}.

Inductive Op : Type :=
| RegisterDomain (domain : Domain)
| RegisterProvider (nameOrDomain : NameOrDomain) (provider : Provider)
| RegisterRpcProvider (nameOrDomain : NameOrDomain) (rpc : string)
| RegisterSigner (nameOrDomain : NameOrDomain) (signer : Signer)
| RegisterWalletSigner (nameOrDomain : NameOrDomain) (privkey : string)
| UnregisterSigner (nameOrDomain : NameOrDomain)
| ClearSigners
| RegisterOverrides (nameOrDomain : NameOrDomain) (o : Overrides)
| RegisterConfirmations (nameOrDomain : NameOrDomain) (c : Z).

Definition call (op : Op) : M unit :=
  match op with
  | RegisterDomain d => registerDomain d
  | RegisterProvider nd p => registerProvider nd p
  | RegisterRpcProvider nd rpc => registerRpcProvider nd rpc
  | RegisterSigner nd s => registerSigner nd s
  | RegisterWalletSigner nd k => registerWalletSigner nd k
  | UnregisterSigner nd => unregisterSigner nd
  | ClearSigners => clearSigners
  | RegisterOverrides nd o => registerOverrides nd o
  | RegisterConfirmations nd c => registerConfirmations nd c
  end.

(** The state after a sequence of calls, whatever each call returned. *)
Definition after (ops : list Op) (st : MultiProvider Provider Signer)
    : MultiProvider Provider Signer :=
  foldl (λ st op, (call op st).2) st ops.

Inductive reachable : MultiProvider Provider Signer → Prop :=
| reachable_new : reachable new
| reachable_call st op : reachable st → reachable (call op st).2.

(** Every domain is stored under its own id. *)
Definition wf_domains (st : MultiProvider Provider Signer) : Prop :=
  Forall (λ kd, id kd.2 = kd.1) (domains st).

(** The consistency the registry maintains between its three maps. *)
Record consistent (st : MultiProvider Provider Signer) : Prop := {
  domains_keyed : wf_domains st;
  signer_has_provider_entry :
    ∀ k, is_Some (signers st !! k) → is_Some (providers st !! k);
  provider_has_domain :
    ∀ k, is_Some (providers st !! k) → k ∈ domainNumbers st
}.


(** The contract of rebinding: a signer returned by [connect] is
    attached to the provider it was given. *)
Definition connect_binds : Prop :=
  ∀ (s s' : Signer) (p : Provider),
    connect s p = Some s' → signer_provider s' = Some p.

(** A computation keeps a property of the registry, whether it returns
    or throws. *)
Definition preserves {A} (I : MultiProvider Provider Signer → Prop) (m : M A) : Prop :=
  ∀ st, I st → I (m st).2.


(** [op] registers a policy (overrides or confirmations) under a
    reference that resolves to [n] in [st]. *)
Definition registers_policy_for (n : Z) (op : Op)
    (st : MultiProvider Provider Signer) : Prop :=
  match op with
  | RegisterOverrides nd _ | RegisterConfirmations nd _ =>
      (resolveDomain nd st).1 = Ok n
  | _ => False
  end.

(** No call of the sequence, run from [st], registers a policy for [n]. *)
Fixpoint no_policy_for (n : Z) (ops : list Op)
    (st : MultiProvider Provider Signer) : Prop :=
  match ops with
  | [] => True
  | op :: ops' =>
      ¬ registers_policy_for n op st ∧ no_policy_for n ops' (call op st).2
  end.

(** The two policy maps are [o] and [c]. *)
Definition same_policy (o : gmap Z Overrides) (c : gmap Z Z)
    (st : MultiProvider Provider Signer) : Prop :=
  overrides st = o ∧ confirmations st = c.

End Reachable.

(** ** Concrete registries used in the examples *)
Module Scenario.

Import EthersModel.

#[local] Existing Instance ascii_strings.

Abbreviation Registry := (MultiProvider provider signer).

Definition alpha : Domain := {| id := 1; name := "alpha" |}.
Definition Alpha2 : Domain := {| id := 2; name := "Alpha" |}.

Definition P : provider := JsonRpcProvider "http://localhost:8545".
Definition P2 : provider := JsonRpcProvider "http://localhost:8546".

(** A signer that cannot be rebound and carries [P]. *)
Definition S : signer := JsonRpcSigner P "0xa11ce".
(** A signer that cannot be rebound and carries [P2]. *)
Definition S2 : signer := JsonRpcSigner P2 "0xa11ce".
(** A wallet, not attached to any provider. *)
Definition W : signer := WalletSigner "0xkey" None.

(** [registerDomain({id:1, name:"alpha"})] then [registerProvider(1, P)]. *)
Definition alpha_with_P : Registry :=
  after [RegisterDomain alpha; RegisterProvider (Num 1) P] new.

(** ... then [registerSigner("Alpha", S)]. *)
Definition alpha_with_S : Registry :=
  after [RegisterSigner (Name "Alpha") S] alpha_with_P.

(** Two domains whose names differ by letter case only. *)
Definition two_alphas : Registry :=
  after [RegisterDomain alpha; RegisterDomain Alpha2] new.

(** A registry value in which domain 1 has a signer and no provider
    entry; the public methods do not build it. *)
Definition signer_only : Registry :=
  {| domains := [(1, alpha)]; providers := ∅; signers := {[ 1 := S ]};
     overrides := ∅; confirmations := ∅ |}.


End Scenario.

(** ** Signers written by a user of the library

    [ethers.Signer] is an abstract class; a subclass chooses what
    [connect] does.  [Countdown n] rebinds [n] times and then throws;
    [Forgetful] accepts every [connect] and returns a signer that is
    attached to no provider. *)
Module CustomSigners.

Import EthersModel.

#[local] Existing Instance ascii_strings.

Inductive signer : Type :=
| Countdown (rebinds : nat) (attached : option provider)
| Forgetful (attached : option provider)
| WalletSigner (privkey : string) (attached : option provider).

Definition provider_of (s : signer) : option provider :=
  match s with
  | Countdown _ p => p
  | Forgetful p => p
  | WalletSigner _ p => p
  end.

Definition connect_to (s : signer) (p : provider) : option signer :=
  match s with
  | Countdown O _ => None
  | Countdown (S n) _ => Some (Countdown n (Some p))
  | Forgetful _ => Some (Forgetful None)
  | WalletSigner k _ => Some (WalletSigner k (Some p))
  end.

Definition new_Wallet (privkey : string) : option signer :=
  if bool_decide (privkey = "") then None else Some (WalletSigner privkey None).

#[global] Instance ethers : Ethers provider signer := {|
  signer_provider := provider_of;
  connect := connect_to;
  StaticCeloJsonRpcProvider := CeloJsonRpcProvider;
  StaticJsonRpcProvider := JsonRpcProvider;
  Wallet := new_Wallet
|}.

(** [registerDomain({id:1, name:"alpha"})] then [registerProvider(1, P)]. *)
Definition alpha_with_P : MultiProvider provider signer :=
  after [RegisterDomain Scenario.alpha; RegisterProvider (Num 1) Scenario.P] new.


End CustomSigners.

(** ** Signers and the provider of their domain *)
Section Attachment.

Context {Provider Signer : Type} `{!Ethers Provider Signer} {js : JsString}.

(** Every stored signer carries the provider registered for its domain. *)
Definition signers_attached (st : MultiProvider Provider Signer) : Prop :=
  ∀ k s, signers st !! k = Some s →
         ∃ p, signer_provider s = Some p ∧ providers st !! k = Some p.

(** The provider [registerRpcProvider] builds for a reference: the Celo
    provider for the literal names of [celoNames], the plain JSON-RPC
    provider for every other reference. *)
Definition rpc_provider (nameOrDomain : NameOrDomain) (rpc : string) : Provider :=
  if existsb (is_name nameOrDomain) celoNames
  then StaticCeloJsonRpcProvider rpc
  else StaticJsonRpcProvider rpc.

End Attachment.

(** * Properties *)

(** ** Ordered maps *)
Module JsMapFacts.
Import JsMap.

Lemma get_set_eq {V} k (v : V) m : get k (set k v m) = Some v.
Proof.
  induction m as [|[k' v'] m IH]; simpl.
  - by rewrite Z.eqb_refl.
  - destruct (Z.eqb_spec k k') as [->|Hne]; simpl.
    + by rewrite Z.eqb_refl.
    + destruct (Z.eqb_spec k k'); [done|]. exact IH.
Qed.

Lemma get_set_ne {V} k k' (v : V) m : k ≠ k' → get k' (set k v m) = get k' m.
Proof.
  intros Hne. induction m as [|[k0 v0] m IH]; simpl.
  - destruct (Z.eqb_spec k' k); [congruence|done].
  - destruct (Z.eqb_spec k k0) as [->|Hk]; simpl.
    + destruct (Z.eqb_spec k' k0); [congruence|done].
    + by rewrite IH.
Qed.

Lemma get_Some_elem {V} k (v : V) m : get k m = Some v → (k, v) ∈ m.
Proof.
  induction m as [|[k' v'] m IH]; simpl; [done|].
  destruct (Z.eqb_spec k k') as [->|Hne].
  - intros [= ->]. apply list_elem_of_here.
  - intros H. apply list_elem_of_further. auto.
Qed.

Lemma get_is_Some {V} k (m : t V) : is_Some (get k m) ↔ k ∈ keys m.
Proof.
  unfold keys. induction m as [|[k' v'] m IH]; simpl.
  - split; [by intros [? ?]|by intros ?%elem_of_nil].
  - destruct (Z.eqb_spec k k') as [->|Hne].
    + split; [intros _; apply list_elem_of_here|eauto].
    + rewrite IH, elem_of_cons. split; [by right|]. by intros [?|?].
Qed.

(** [set] keeps the position of a key that is present and appends a
    new key at the end. *)
Lemma keys_set {V} k (v : V) m :
  keys (set k v m) = if decide (k ∈ keys m) then keys m else (keys m ++ [k])%list.
Proof.
  unfold keys. induction m as [|[k' v'] m IH].
  - rewrite decide_False; [done|apply not_elem_of_nil].
  - cbn [set map fst]. destruct (Z.eqb_spec k k') as [->|Hne]; cbn [map fst].
    + rewrite decide_True; [done|apply list_elem_of_here].
    + rewrite IH. destruct (decide (k ∈ map fst m)) as [Hin|Hin].
      * rewrite decide_True; [done|by apply list_elem_of_further].
      * rewrite decide_False; [done|]. rewrite elem_of_cons. intuition.
Qed.

Lemma elem_of_set {V} k (v : V) m kd :
  kd ∈ set k v m → kd = (k, v) ∨ kd ∈ m.
Proof.
  induction m as [|[k' v'] m IH]; simpl.
  - intros ->%list_elem_of_singleton. by left.
  - destruct (Z.eqb_spec k k') as [->|Hne].
    + rewrite !elem_of_cons. intuition.
    + rewrite !elem_of_cons. intuition.
Qed.

End JsMapFacts.

(** ** Running the methods *)
Section Run.

Context {Provider Signer : Type} `{!Ethers Provider Signer} {js : JsString}.
Implicit Types st : MultiProvider Provider Signer.
Implicit Types nd : NameOrDomain.

(** [resolveDomain] reads [domains] only and leaves the registry as it is. *)
Lemma resolveDomain_run nd st :
  resolveDomain nd st = ((resolveDomain nd st).1, st).
Proof.
  destruct nd as [s|n]; [|done].
  unfold resolveDomain, mbind, M_bind, bind, gets. simpl.
  by destruct (filter _ _).
Qed.

Lemma resolveDomain_ext nd st st' :
  domains st = domains st' → (resolveDomain nd st).1 = (resolveDomain nd st').1.
Proof.
  intros Hd. destruct nd as [s|n]; [|done].
  unfold resolveDomain, mbind, M_bind, bind, gets. simpl. rewrite Hd.
  by destruct (filter _ _).
Qed.

Lemma resolveDomain_Num n st : resolveDomain (Num n) st = (Ok n, st).
Proof. done. Qed.

Lemma getFromMap_run {T} nd (map : MultiProvider Provider Signer → Z → option T) st :
  getFromMap nd map st =
    match (resolveDomain nd st).1 with
    | Ok k => (Ok (map st k), st)
    | Throw e => (Throw e, st)
    end.
Proof.
  unfold getFromMap, mbind, M_bind, bind, gets.
  rewrite resolveDomain_run; cbn [fst]. by destruct (resolveDomain nd st).1.
Qed.

Lemma mustGetFromMap_truthy_run {T} (truthy : T → bool) nd
    (map : MultiProvider Provider Signer → Z → option T) tname st :
  mustGetFromMap truthy nd map tname st =
    match (resolveDomain nd st).1 with
    | Ok k => match map st k with
              | Some item =>
                  if truthy item then (Ok item, st)
                  else (Throw (NotFound tname nd), st)
              | None => (Throw (NotFound tname nd), st)
              end
    | Throw e => (Throw e, st)
    end.
Proof.
  unfold mustGetFromMap, mbind, M_bind, bind. rewrite getFromMap_run.
  destruct (resolveDomain nd st).1; [|done].
  destruct (map st a) as [item|]; [|done]. by destruct (truthy item).
Qed.

Lemma mustGetFromMap_run {T} nd (map : MultiProvider Provider Signer → Z → option T) tname st :
  mustGetFromMap object_truthy nd map tname st =
    match (resolveDomain nd st).1 with
    | Ok k => match map st k with
              | Some item => (Ok item, st)
              | None => (Throw (NotFound tname nd), st)
              end
    | Throw e => (Throw e, st)
    end.
Proof. by rewrite mustGetFromMap_truthy_run. Qed.

Lemma unregisterSigner_run nd st :
  unregisterSigner nd st =
    match (resolveDomain nd st).1 with
    | Throw e => (Throw e, st)
    | Ok domain =>
        match signers st !! domain with
        | None => (Ok (), st)
        | Some signer =>
            match signer_provider signer with
            | None => (Throw InvariantViolation, st)
            | Some p =>
                (Ok (),
                 match providers st !! domain with
                 | Some _ => set_signers (delete domain) st
                 | None => set_providers <[domain := p]> (set_signers (delete domain) st)
                 end)
            end
        end
    end.
Proof.
  unfold unregisterSigner, mbind, M_bind, bind, gets.
  rewrite resolveDomain_run; cbn [fst].
  destruct (resolveDomain nd st).1 as [domain|e] eqn:Hr; [|done].
  destruct (signers st !! domain) as [signer|]; [|done].
  destruct (signer_provider signer) as [p|]; [|done].
  unfold modify, getProvider. rewrite getFromMap_run.
  rewrite <- (resolveDomain_ext nd st) by done. rewrite Hr.
  unfold providers_get. simpl. by destruct (providers st !! domain).
Qed.

Lemma registerProvider_run nd provider st :
  registerProvider nd provider st =
    match (resolveDomain nd st).1 with
    | Throw e => (Throw e, st)
    | Ok k =>
        match JsMap.get k (domains st) with
        | None => (Throw (NotFound "Domain" nd), st)
        | Some d =>
            match signers st !! id d with
            | None => (Ok (), set_providers <[id d := provider]> st)
            | Some signer =>
                match connect signer provider with
                | Some s =>
                    (Ok (), set_providers <[id d := provider]>
                              (set_signers <[id d := s]> st))
                | None =>
                    match signer_provider signer with
                    | None => (Throw InvariantViolation, st)
                    | Some _ =>
                        (Ok (), set_providers <[id d := provider]>
                                  (set_signers (delete (id d)) st))
                    end
                end
            end
        end
    end.
Proof.
  unfold registerProvider, mustGetDomain, mbind, M_bind, bind.
  rewrite mustGetFromMap_run. unfold domains_get.
  destruct (resolveDomain nd st).1 as [k|e]; [|done].
  destruct (JsMap.get k (domains st)) as [d|]; [|done].
  unfold try_catch, gets, bind, signer_connect.
  destruct (signers st !! id d) as [signer|] eqn:Hs; [|done].
  destruct (connect signer provider) as [s|]; [done|].
  unfold throw. rewrite unregisterSigner_run, resolveDomain_Num. simpl.
  rewrite Hs. destruct (signer_provider signer) as [p|]; [|done].
  unfold modify. destruct (providers st !! id d); [done|].
  unfold set_providers. simpl. by rewrite insert_insert_eq.
Qed.

Lemma registerSigner_run nd signer st :
  registerSigner nd signer st =
    match (resolveDomain nd st).1 with
    | Throw e => (Throw e, st)
    | Ok domain =>
        match providers st !! domain with
        | Some provider =>
            match connect signer provider with
            | Some signer1 =>
                match connect signer1 provider with
                | Some signer2 => (Ok (), set_signers <[domain := signer2]> st)
                | None => registerSigner_fallback domain signer1 st
                end
            | None => registerSigner_fallback domain signer st
            end
        | None =>
            match signer_provider signer with
            | Some _ => registerSigner_fallback domain signer st
            | None => (Throw MissingProvider, st)
            end
        end
    end.
Proof.
  unfold registerSigner, mbind, M_bind, bind, gets.
  rewrite resolveDomain_run; cbn [fst].
  destruct (resolveDomain nd st).1 as [domain|e]; [|done].
  destruct (providers st !! domain) as [provider|].
  - unfold registerSigner_try.
    destruct (connect signer provider) as [signer1|]; [|done].
    by destruct (connect signer1 provider).
  - by destruct (signer_provider signer).
Qed.

End Run.

(** ** Consistency of the three maps *)
Section Consistency.

Context {Provider Signer : Type} `{!Ethers Provider Signer} {js : JsString}.
Implicit Types st : MultiProvider Provider Signer.
Implicit Types nd : NameOrDomain.
Local Abbreviation keeps I m :=
  (preserves (Provider := Provider) (Signer := Signer) I m) (only parsing).

Lemma preserves_bind {A B} (I : MultiProvider Provider Signer → Prop)
    (m : M A) (k : A → M B) :
  keeps I m → (∀ a, keeps I (k a)) → keeps I (m ≫= k).
Proof.
  intros Hm Hk st HI. unfold mbind, M_bind, bind.
  specialize (Hm st HI). destruct (m st) as [[a|e] st']; simpl in *; [|done].
  by apply Hk.
Qed.

Lemma preserves_forEach {A} (I : MultiProvider Provider Signer → Prop)
    (l : list A) (f : A → M unit) :
  (∀ x, keeps I (f x)) → keeps I (forEach l f).
Proof.
  intros Hf. induction l as [|x l IH]; [by intros st|].
  apply preserves_bind; [apply Hf|by intros _].
Qed.

Lemma preserves_resolveDomain (I : MultiProvider Provider Signer → Prop) nd :
  keeps I (resolveDomain nd).
Proof. intros st HI. by rewrite resolveDomain_run. Qed.

Lemma wf_domains_get st k d :
  wf_domains st → JsMap.get k (domains st) = Some d → id d = k.
Proof.
  intros Hwf Hget%JsMapFacts.get_Some_elem.
  unfold wf_domains in Hwf. rewrite Forall_forall in Hwf.
  exact (Hwf _ Hget).
Qed.

Lemma consistent_set_providers st k p :
  consistent st → k ∈ domainNumbers st →
  consistent (set_providers <[k := p]> st).
Proof.
  intros [Hwf Hsp Hpd] Hk. split; [done| |]; simpl; intros k'.
  - intros Hs%Hsp. rewrite lookup_insert. by case_decide.
  - rewrite lookup_insert. case_decide; [by subst|]. apply Hpd.
Qed.

Lemma consistent_set_signers st k s :
  consistent st → is_Some (providers st !! k) →
  consistent (set_signers <[k := s]> st).
Proof.
  intros [Hwf Hsp Hpd] Hk. split; [done| |done]; simpl; intros k'.
  rewrite lookup_insert. case_decide; [by subst|]. apply Hsp.
Qed.

Lemma consistent_delete_signer st k :
  consistent st → consistent (set_signers (delete k) st).
Proof.
  intros [Hwf Hsp Hpd]. split; [done| |done]; simpl; intros k'.
  rewrite lookup_delete. case_decide; [by intros [? ?]|]. apply Hsp.
Qed.

Lemma unregisterSigner_consistent nd : keeps consistent (unregisterSigner nd).
Proof.
  intros st Hc. rewrite unregisterSigner_run.
  destruct (resolveDomain nd st).1 as [domain|e]; [|done].
  destruct (signers st !! domain) as [signer|] eqn:Hs; [|done].
  destruct (signer_provider signer) as [p|]; [|done]. simpl.
  destruct (providers st !! domain) eqn:Hp.
  - by apply consistent_delete_signer.
  - destruct (signer_has_provider_entry st Hc domain) as [? ?]; [by eexists|].
    congruence.
Qed.

Lemma registerProvider_consistent nd provider :
  keeps consistent (registerProvider nd provider).
Proof.
  intros st Hc. rewrite registerProvider_run.
  destruct (resolveDomain nd st).1 as [k|e]; [|done].
  destruct (JsMap.get k (domains st)) as [d|] eqn:Hd; [|done].
  assert (id d ∈ domainNumbers st) as Hin.
  { rewrite (wf_domains_get st k d) by (done || apply Hc).
    apply JsMapFacts.get_is_Some. by eexists. }
  destruct (signers st !! id d) as [signer|] eqn:Hs.
  - destruct (connect signer provider) as [s|].
    + simpl. apply consistent_set_providers; [|done].
      apply consistent_set_signers; [done|].
      apply (signer_has_provider_entry st Hc). by eexists.
    + destruct (signer_provider signer); [|done]. simpl.
      apply consistent_set_providers; [|done].
      by apply consistent_delete_signer.
  - simpl. by apply consistent_set_providers.
Qed.

(** A successful [registerProvider] on a numeric id leaves a provider
    entry for that id. *)
Lemma registerProvider_Num_entry domain provider st st' :
  wf_domains st →
  registerProvider (Num domain) provider st = (Ok (), st') →
  providers st' !! domain = Some provider.
Proof.
  intros Hwf. rewrite registerProvider_run, resolveDomain_Num. cbn [fst].
  destruct (JsMap.get domain (domains st)) as [d|] eqn:Hd; [|done].
  rewrite (wf_domains_get st domain d) by done.
  destruct (signers st !! domain) as [signer|].
  - destruct (connect signer provider).
    + intros [= <-]. simpl. apply lookup_insert_eq.
    + destruct (signer_provider signer); [|done].
      intros [= <-]. simpl. apply lookup_insert_eq.
  - intros [= <-]. simpl. apply lookup_insert_eq.
Qed.

Lemma registerSigner_fallback_consistent domain signer :
  keeps consistent (registerSigner_fallback domain signer).
Proof.
  intros st Hc. unfold registerSigner_fallback.
  destruct (signer_provider signer) as [p|]; [|done].
  unfold mbind, M_bind, bind.
  pose proof (registerProvider_consistent (Num domain) p st Hc) as Hc'.
  pose proof (registerProvider_Num_entry domain p st) as He.
  destruct (registerProvider (Num domain) p st) as [[[]|e] st']; [|done].
  simpl in *. apply consistent_set_signers; [done|].
  rewrite (He st') by (done || apply Hc). by eexists.
Qed.

Lemma registerSigner_consistent nd signer :
  keeps consistent (registerSigner nd signer).
Proof.
  intros st Hc. unfold registerSigner, mbind, M_bind, bind, gets.
  rewrite resolveDomain_run; cbn [fst].
  destruct (resolveDomain nd st).1 as [domain|e]; [|done].
  destruct (providers st !! domain) as [provider|] eqn:Hp.
  - unfold registerSigner_try.
    destruct (connect signer provider) as [signer1|].
    + destruct (connect signer1 provider) as [signer2|].
      * simpl. apply consistent_set_signers; [done|]. by eexists.
      * by apply registerSigner_fallback_consistent.
    + by apply registerSigner_fallback_consistent.
  - destruct (signer_provider signer) eqn:Hsp; [|done].
    by apply registerSigner_fallback_consistent.
Qed.

Lemma clearSigners_consistent : keeps consistent clearSigners.
Proof.
  apply preserves_bind; [by intros st|].
  intros numbers. apply preserves_forEach.
  intros domain. apply unregisterSigner_consistent.
Qed.

Lemma registerDomain_consistent domain : keeps consistent (registerDomain domain).
Proof.
  intros st [Hwf Hsp Hpd]. split; [|done|]; simpl.
  - unfold wf_domains in *. simpl. rewrite Forall_forall in *.
    intros kd [->|Hin]%JsMapFacts.elem_of_set; [done|by apply Hwf].
  - intros k Hk%Hpd. unfold domainNumbers in *. simpl.
    rewrite JsMapFacts.keys_set. case_decide; [done|].
    apply elem_of_app. by left.
Qed.

Lemma setMap_overrides_consistent nd o :
  keeps consistent (registerOverrides nd o).
Proof.
  intros st Hc. unfold registerOverrides, setMap, mbind, M_bind, bind.
  rewrite resolveDomain_run; cbn [fst].
  destruct (resolveDomain nd st).1; [|done]. by destruct Hc.
Qed.

Lemma setMap_confirmations_consistent nd c :
  keeps consistent (registerConfirmations nd c).
Proof.
  intros st Hc. unfold registerConfirmations, setMap, mbind, M_bind, bind.
  rewrite resolveDomain_run; cbn [fst].
  destruct (resolveDomain nd st).1; [|done]. by destruct Hc.
Qed.

Lemma call_consistent op : keeps consistent (call op).
Proof.
  destruct op; simpl.
  - apply registerDomain_consistent.
  - apply registerProvider_consistent.
  - apply preserves_bind; [apply preserves_resolveDomain|].
    intros domain. destruct (existsb _ _); apply registerProvider_consistent.
  - apply registerSigner_consistent.
  - apply preserves_bind; [apply preserves_resolveDomain|].
    intros domain. destruct (Wallet privkey); [|by intros st].
    apply registerSigner_consistent.
  - apply unregisterSigner_consistent.
  - apply clearSigners_consistent.
  - apply setMap_overrides_consistent.
  - apply setMap_confirmations_consistent.
Qed.

Lemma new_consistent : consistent (new : MultiProvider Provider Signer).
Proof.
  split; simpl.
  - apply Forall_nil_2.
  - intros k. rewrite lookup_empty. by intros [? ?].
  - intros k. rewrite lookup_empty. by intros [? ?].
Qed.

Lemma reachable_consistent st : reachable st → consistent st.
Proof.
  induction 1 as [|st op _ IH]; [apply new_consistent|by apply call_consistent].
Qed.

End Consistency.

(** ** Stored signers carry a provider *)
Section Bound.

Context {Provider Signer : Type} `{!Ethers Provider Signer} {js : JsString}.
Implicit Types st : MultiProvider Provider Signer.
Implicit Types nd : NameOrDomain.
Local Abbreviation keeps I m :=
  (preserves (Provider := Provider) (Signer := Signer) I m) (only parsing).

Hypothesis connect_bound : connect_binds (Provider := Provider) (Signer := Signer).










End Bound.

(** ** Sequences of calls *)
Section After.

Context {Provider Signer : Type} `{!Ethers Provider Signer} {js : JsString}.
Implicit Types st : MultiProvider Provider Signer.

Lemma reachable_after ops st : reachable st → reachable (after ops st).
Proof.
  revert st. induction ops as [|op ops IH]; intros st Hr; [done|].
  simpl. apply IH. by constructor.
Qed.

(** The getters leave the registry as it is. *)
Lemma getFromMap_state {T} nd (map : MultiProvider Provider Signer → Z → option T) st :
  (getFromMap nd map st).2 = st.
Proof. rewrite getFromMap_run. by destruct (resolveDomain nd st).1. Qed.

End After.

(** ** The policy maps are written by the policy setters only *)
Section PolicyFrame.

Context {Provider Signer : Type} `{!Ethers Provider Signer} {js : JsString}.
Implicit Types st : MultiProvider Provider Signer.
Implicit Types nd : NameOrDomain.

Local Abbreviation keeps I m :=
  (preserves (Provider := Provider) (Signer := Signer) I m) (only parsing).

Lemma unregisterSigner_policy o c nd : keeps (same_policy o c) (unregisterSigner nd).
Proof.
  intros st Hst. rewrite unregisterSigner_run.
  destruct (resolveDomain nd st).1 as [domain|e]; [|done].
  destruct (signers st !! domain) as [signer|]; [|done].
  destruct (signer_provider signer) as [p|]; [|done]. simpl.
  by destruct (providers st !! domain).
Qed.

Lemma registerProvider_policy o c nd provider :
  keeps (same_policy o c) (registerProvider nd provider).
Proof.
  intros st Hst. rewrite registerProvider_run.
  destruct (resolveDomain nd st).1 as [k|e]; [|done].
  destruct (JsMap.get k (domains st)) as [d|]; [|done].
  destruct (signers st !! id d) as [signer|]; [|done].
  destruct (connect signer provider) as [s|]; [done|].
  by destruct (signer_provider signer).
Qed.

Lemma registerSigner_fallback_policy o c domain signer :
  keeps (same_policy o c) (registerSigner_fallback domain signer).
Proof.
  unfold registerSigner_fallback.
  destruct (signer_provider signer) as [p|]; [|by intros st].
  apply preserves_bind; [apply registerProvider_policy|]. by intros _ st.
Qed.

Lemma registerSigner_policy o c nd signer :
  keeps (same_policy o c) (registerSigner nd signer).
Proof.
  intros st Hst. rewrite registerSigner_run.
  destruct (resolveDomain nd st).1 as [domain|e]; [|done].
  destruct (providers st !! domain) as [provider|].
  - destruct (connect signer provider) as [signer1|].
    + destruct (connect signer1 provider) as [signer2|]; [done|].
      by apply registerSigner_fallback_policy.
    + by apply registerSigner_fallback_policy.
  - destruct (signer_provider signer); [|done].
    by apply registerSigner_fallback_policy.
Qed.

Lemma call_policy_frame n op st :
  ¬ registers_policy_for n op st →
  overrides (call op st).2 !! n = overrides st !! n
  ∧ confirmations (call op st).2 !! n = confirmations st !! n.
Proof.
  intros Hno.
  assert (keeps (same_policy (overrides st) (confirmations st)) (call op) →
          overrides (call op st).2 !! n = overrides st !! n
          ∧ confirmations (call op st).2 !! n = confirmations st !! n) as Hsame.
  { intros Hk. destruct (Hk st) as [-> ->]; done. }
  destruct op as [d|nd p|nd rpc|nd s|nd k| nd| |nd o|nd c]; simpl in *.
  - done.
  - apply Hsame, registerProvider_policy.
  - apply Hsame, preserves_bind; [apply preserves_resolveDomain|].
    intros domain. destruct (existsb _ _); apply registerProvider_policy.
  - apply Hsame, registerSigner_policy.
  - apply Hsame, preserves_bind; [apply preserves_resolveDomain|].
    intros domain. destruct (Wallet k); [|by intros st'].
    apply registerSigner_policy.
  - apply Hsame, unregisterSigner_policy.
  - apply Hsame, preserves_bind; [by intros st'|].
    intros numbers. apply preserves_forEach.
    intros domain. apply unregisterSigner_policy.
  - unfold registerOverrides, setMap, mbind, M_bind, bind.
    rewrite resolveDomain_run; cbn [fst].
    destruct (resolveDomain nd st).1 as [k|e]; [|done]. simpl.
    rewrite lookup_insert_ne; [done|]. by intros ->.
  - unfold registerConfirmations, setMap, mbind, M_bind, bind.
    rewrite resolveDomain_run; cbn [fst].
    destruct (resolveDomain nd st).1 as [k|e]; [|done]. simpl.
    rewrite lookup_insert_ne; [done|]. by intros ->.
Qed.

Lemma after_policy_frame n ops st :
  no_policy_for n ops st →
  overrides (after ops st) !! n = overrides st !! n
  ∧ confirmations (after ops st) !! n = confirmations st !! n.
Proof.
  revert st. induction ops as [|op ops IH]; intros st; [done|].
  intros [Hop Hops]. simpl.
  destruct (IH _ Hops) as [-> ->]. by apply call_policy_frame.
Qed.

End PolicyFrame.

(** ** The claims *)
Section Claims.

Context {Provider Signer : Type} `{!Ethers Provider Signer} {js : JsString}.
Implicit Types st : MultiProvider Provider Signer.
Implicit Types nd : NameOrDomain.

(** C1.  In every registry state reachable by the public operations, a
    domain id that has a signer entry also has a provider entry or a
    stored signer that carries a provider reference of its own: no call
    leaves a signer without a discoverable provider. *)
Theorem signer_has_discoverable_provider st :
  reachable st →
  ∀ d s, signers st !! d = Some s →
         is_Some (providers st !! d) ∨ is_Some (signer_provider s).
Proof.
  intros Hr d s Hs. left.
  apply (signer_has_provider_entry st (reachable_consistent st Hr)).
  by eexists.
Qed.


(** C9.  A domain reference that resolves to an id without an entry in
    [overrides] gets the empty bag, and one without an entry in
    [confirmations] gets [0]; for a numeric id no registration of the
    domain is needed.  In particular, after any sequence of calls on a new
    registry none of which registers a policy for [n], [getOverrides(n)]
    is the empty bag and [getConfirmations(n)] is [0]. *)
Theorem policy_defaults :
  (∀ st n, overrides st !! n = None → getOverrides (Num n) st = (Ok ∅, st))
  ∧ (∀ st n, confirmations st !! n = None →
             getConfirmations (Num n) st = (Ok 0, st))
  ∧ (∀ st nd k, (resolveDomain nd st).1 = Ok k →
       (overrides st !! k = None → getOverrides nd st = (Ok ∅, st))
       ∧ (confirmations st !! k = None → getConfirmations nd st = (Ok 0, st)))
  ∧ (∀ ops n, no_policy_for n ops (new : MultiProvider Provider Signer) →
       getOverrides (Num n) (after ops new) = (Ok ∅, after ops new)
       ∧ getConfirmations (Num n) (after ops new) = (Ok 0, after ops new)).
Proof.
  assert (∀ st nd k, (resolveDomain nd st).1 = Ok k →
       (overrides st !! k = None → getOverrides nd st = (Ok ∅, st))
       ∧ (confirmations st !! k = None → getConfirmations nd st = (Ok 0, st))) as H.
  { intros st nd k Hk. unfold getOverrides, getConfirmations, mbind, M_bind, bind.
    rewrite !getFromMap_run, Hk.
    unfold overrides_get, confirmations_get. split; by intros ->. }
  split_and!.
  - intros st n. by apply (H st (Num n)).
  - intros st n. by apply (H st (Num n)).
  - done.
  - intros ops n Hops.
    destruct (after_policy_frame n ops new Hops) as [Ho Hc].
    simpl in Ho, Hc. rewrite lookup_empty in Ho. rewrite lookup_empty in Hc.
    destruct (H (after ops new) (Num n) n eq_refl) as [Hov Hconf]. auto.
Qed.

(** C4.  [unregisterSigner] on a reference that resolves to [domain]:
    without a signer entry it changes nothing; with a stored signer it
    throws exactly when that signer has no provider reference, the only
    error being [InvariantViolation], and then changes nothing; when it
    succeeds the signer entry is gone, other signers are untouched, an
    existing provider entry is kept, and without one [getProvider]
    afterwards returns the removed signer's provider. *)
Theorem unregisterSigner_spec nd domain st :
  (resolveDomain nd st).1 = Ok domain →
  (signers st !! domain = None → unregisterSigner nd st = (Ok (), st))
  ∧ (∀ s, signers st !! domain = Some s →
       ((unregisterSigner nd st).1 = Throw InvariantViolation ↔
          signer_provider s = None)
       ∧ (∀ e, (unregisterSigner nd st).1 = Throw e →
               e = InvariantViolation ∧ (unregisterSigner nd st).2 = st)
       ∧ ((unregisterSigner nd st).1 = Ok () →
            let st' := (unregisterSigner nd st).2 in
            getSigner nd st' = (Ok None, st')
            ∧ (∀ k, k ≠ domain → signers st' !! k = signers st !! k)
            ∧ (providers st !! domain = None →
                 getProvider nd st' = (Ok (signer_provider s), st'))
            ∧ (is_Some (providers st !! domain) → providers st' = providers st))).
Proof.
  intros Hr. rewrite unregisterSigner_run, Hr. split.
  { by intros ->. }
  intros s ->. destruct (signer_provider s) as [p|] eqn:Hp; simpl.
  - split_and!; [done|done|]. intros _.
    assert (∀ st', domains st' = domains st →
              (resolveDomain nd st').1 = Ok domain) as Hr'.
    { intros st' Hd. by rewrite (resolveDomain_ext nd st' st). }
    unfold getSigner, getProvider. rewrite !getFromMap_run.
    destruct (providers st !! domain) as [p0|] eqn:Hp0.
    + rewrite Hr' by done. unfold signers_get. simpl.
      rewrite lookup_delete_eq. split_and!; [done| |done|done].
      intros k Hk. by rewrite lookup_delete_ne.
    + rewrite Hr' by done. unfold signers_get, providers_get. simpl.
      rewrite lookup_delete_eq, lookup_insert_eq. split_and!; [done| |done|].
      * intros k Hk. by rewrite lookup_delete_ne.
      * by intros [? ?].
  - split_and!; [done| |done]. by intros e [= <-].
Qed.

End Claims.

Section Witnesses.

Import EthersModel Scenario.

#[local] Existing Instance ascii_strings.

Lemma signer_has_discoverable_provider_witness :
  is_Some (providers alpha_with_S !! 1) ∨ is_Some (signer_provider S).
Proof.
  apply (signer_has_discoverable_provider alpha_with_S).
  - apply reachable_after, reachable_after, reachable_new.
  - reflexivity.
Defined.

Lemma policy_defaults_witness :
  getOverrides (Num 7) alpha_with_S = (Ok ∅, alpha_with_S)
  ∧ getConfirmations (Num 7) alpha_with_S = (Ok 0, alpha_with_S)
  ∧ getConfirmations (Num 1)
      (after [RegisterDomain alpha; RegisterConfirmations (Num 2) 3] (new : Registry))
    = (Ok 0, after [RegisterDomain alpha; RegisterConfirmations (Num 2) 3] new).
Proof.
  destruct (policy_defaults (Provider := provider) (Signer := signer))
    as (Ho & Hc & _ & Hops).
  split_and!; [apply Ho; reflexivity|apply Hc; reflexivity|].
  apply (Hops [RegisterDomain alpha; RegisterConfirmations (Num 2) 3] 1).
  simpl. split_and!; [tauto|discriminate|done].
Defined.

Lemma unregisterSigner_spec_witness :
  getSigner (Name "ALPHA") (unregisterSigner (Name "ALPHA") signer_only).2
    = (Ok None, (unregisterSigner (Name "ALPHA") signer_only).2)
  ∧ getProvider (Name "ALPHA") (unregisterSigner (Name "ALPHA") signer_only).2
    = (Ok (Some P), (unregisterSigner (Name "ALPHA") signer_only).2).
Proof.
  destruct (unregisterSigner_spec (Name "ALPHA") 1 signer_only) as [_ H];
    [reflexivity|].
  destruct (H S) as (_ & _ & H'); [reflexivity|].
  destruct H' as (Hs & _ & Hp & _); [reflexivity|].
  split; [exact Hs|apply Hp; reflexivity].
Defined.

End Witnesses.

Section ResolveClaims.

Context {Provider Signer : Type} `{!Ethers Provider Signer} {js : JsString}.
Implicit Types st : MultiProvider Provider Signer.
Implicit Types nd : NameOrDomain.

(** The head of a filtered list is the first element that passes. *)
Lemma filter_first {A} (P : A → Prop) `{!∀ x, Decision (P x)} (l : list A) i x :
  l !! i = Some x → P x →
  (∀ j y, (j < i)%nat → l !! j = Some y → ¬ P y) →
  ∃ l', filter P l = x :: l'.
Proof.
  revert i. induction l as [|a l IH]; intros i Hi Hx Hfirst; [done|].
  destruct i as [|i]; simpl in Hi.
  - injection Hi as ->. rewrite filter_cons_True by done. by eexists.
  - rewrite filter_cons_False by (apply (Hfirst 0%nat); [lia|done]).
    apply (IH i); [done|done|].
    intros j y Hj Hy. apply (Hfirst (S j)); [lia|done].
Qed.

Lemma first_match_exists {A} (P : A → Prop) `{!∀ x, Decision (P x)} (l : list A) x :
  x ∈ l → P x →
  ∃ i y, l !! i = Some y ∧ P y ∧ ∀ j z, (j < i)%nat → l !! j = Some z → ¬ P z.
Proof.
  induction l as [|a l IH]; intros Hin Hx; [by apply elem_of_nil in Hin|].
  destruct (decide (P a)) as [Ha|Ha].
  - exists 0%nat, a. split_and!; [done|done|]. intros j z Hj. lia.
  - apply elem_of_cons in Hin as [->|Hin]; [done|].
    destruct (IH Hin Hx) as (i & y & Hi & Hy & Hfirst).
    exists (S i), y. split_and!; [done|done|].
    intros [|j] z Hj Hz; simpl in Hz; [by injection Hz as <-|].
    apply (Hfirst j); [lia|done].
Qed.

(** C6, as the code has it.  A numeric reference resolves to itself.  A
    name resolves, whatever its letter case, to the id of the FIRST
    registered domain, in iteration order, whose lowercased name equals
    the lowercased reference; this is [D.id] when no domain before [D]
    has such a name.  A name that no registered domain matches fails
    with [DomainNotFound]. *)
Theorem resolveDomain_first_match st :
  (∀ n, resolveDomain (Num n) st = (Ok n, st))
  ∧ (∀ s i D,
       JsMap.values (domains st) !! i = Some D →
       toLowerCase (name D) = toLowerCase s →
       (∀ j D', (j < i)%nat → JsMap.values (domains st) !! j = Some D' →
                toLowerCase (name D') ≠ toLowerCase s) →
       resolveDomain (Name s) st = (Ok (id D), st))
  ∧ (∀ s D,
       D ∈ JsMap.values (domains st) →
       toLowerCase (name D) = toLowerCase s →
       ∃ i D', JsMap.values (domains st) !! i = Some D'
               ∧ toLowerCase (name D') = toLowerCase s
               ∧ (∀ j D'', (j < i)%nat →
                    JsMap.values (domains st) !! j = Some D'' →
                    toLowerCase (name D'') ≠ toLowerCase s)
               ∧ resolveDomain (Name s) st = (Ok (id D'), st))
  ∧ (∀ s,
       (∀ D, D ∈ JsMap.values (domains st) →
             toLowerCase (name D) ≠ toLowerCase s) →
       resolveDomain (Name s) st = (Throw (DomainNotFound (Name s)), st)).
Proof.
  assert (∀ s i D,
       JsMap.values (domains st) !! i = Some D →
       toLowerCase (name D) = toLowerCase s →
       (∀ j D', (j < i)%nat → JsMap.values (domains st) !! j = Some D' →
                toLowerCase (name D') ≠ toLowerCase s) →
       resolveDomain (Name s) st = (Ok (id D), st)) as Hfirst.
  { intros s i D Hi HD Hbefore.
    unfold resolveDomain, mbind, M_bind, bind, gets.
    destruct (filter_first (λ d, toLowerCase (name d) = toLowerCase s)
                (JsMap.values (domains st)) i D Hi HD Hbefore) as [l' ->].
    done. }
  split_and!.
  - done.
  - exact Hfirst.
  - intros s D HD Hs.
    destruct (first_match_exists (λ d, toLowerCase (name d) = toLowerCase s)
                (JsMap.values (domains st)) D HD Hs) as (i & D' & Hi & HD' & Hb).
    exists i, D'. split_and!; [done|done|done|]. by apply (Hfirst s i D').
  - intros s Hnone. unfold resolveDomain, mbind, M_bind, bind, gets.
    destruct (filter _ _) as [|d l] eqn:Hf; [done|].
    assert (d ∈ filter (λ d, toLowerCase (name d) = toLowerCase s)
              (JsMap.values (domains st))) as Hd
      by (rewrite Hf; apply list_elem_of_here).
    apply list_elem_of_filter in Hd as [Hm Hin]. by destruct (Hnone d Hin).
Qed.

(** C7, as the code has it.  A numeric reference is never looked up in
    the domain directory by [resolveDomain], so the getters, the policy
    setters and [unregisterSigner] work on the raw id whether or not it
    is registered.  [registerProvider] does look the id up: on an
    unregistered id it throws [NotFound "Domain"] and changes nothing,
    and so does [registerSigner] for a signer carrying its own provider
    when the id has no provider entry (a signer without one fails with
    [MissingProvider]). *)
Theorem numeric_id_operations st n :
  resolveDomain (Num n) st = (Ok n, st)
  ∧ getProvider (Num n) st = (Ok (providers st !! n), st)
  ∧ getSigner (Num n) st = (Ok (signers st !! n), st)
  ∧ (∃ o, getOverrides (Num n) st = (Ok o, st))
  ∧ (∃ c, getConfirmations (Num n) st = (Ok c, st))
  ∧ (∀ o, registerOverrides (Num n) o st = (Ok (), set_overrides <[n := o]> st))
  ∧ (∀ c, registerConfirmations (Num n) c st
            = (Ok (), set_confirmations <[n := c]> st))
  ∧ (∀ e, (unregisterSigner (Num n) st).1 = Throw e → e = InvariantViolation)
  ∧ (JsMap.get n (domains st) = None →
       (∀ p, registerProvider (Num n) p st = (Throw (NotFound "Domain" (Num n)), st))
       ∧ (∀ s, providers st !! n = None →
            registerSigner (Num n) s st =
              (Throw (match signer_provider s with
                      | Some _ => NotFound "Domain" (Num n)
                      | None => MissingProvider
                      end), st))).
Proof.
  split_and!; try done.
  - by eexists.
  - by eexists.
  - intros e. rewrite unregisterSigner_run, resolveDomain_Num. cbn [fst].
    destruct (signers st !! n) as [s|]; [|done].
    destruct (signer_provider s); [done|]. by intros [= <-].
  - intros Hn.
    assert (∀ p, registerProvider (Num n) p st
                 = (Throw (NotFound "Domain" (Num n)), st)) as Hp.
    { intros p. rewrite registerProvider_run, resolveDomain_Num. cbn [fst].
      by rewrite Hn. }
    split; [exact Hp|]. intros s Hnone.
    unfold registerSigner, mbind, M_bind, bind, gets. simpl. rewrite Hnone.
    destruct (signer_provider s) as [p|] eqn:Hs; [|done].
    unfold registerSigner_fallback, mbind, M_bind, bind. by rewrite Hs, Hp.
Qed.

End ResolveClaims.

Section ResolveWitnesses.

Import EthersModel Scenario.

#[local] Existing Instance ascii_strings.

(** C6 fails as stated: with two registered domains whose names differ
    by case only, resolving the name of the second returns the id of
    the first. *)
Lemma resolveDomain_duplicate_name :
  JsMap.values (domains two_alphas) = [alpha; Alpha2]
  ∧ resolveDomain (Name (name Alpha2)) two_alphas = (Ok 1, two_alphas)
  ∧ id Alpha2 = 2
  ∧ ¬ (∀ (st : Registry) (D : Domain) (s : string),
         D ∈ JsMap.values (domains st) →
         toLowerCase s = toLowerCase (name D) →
         (resolveDomain (Name s) st).1 = Ok (id D)).
Proof.
  split_and!; [reflexivity|reflexivity|reflexivity|].
  intros H. specialize (H two_alphas Alpha2 (name Alpha2)).
  assert ((resolveDomain (Name (name Alpha2)) two_alphas).1 = Ok 1) as Hone
    by reflexivity.
  rewrite H in Hone; [discriminate| |reflexivity].
  vm_compute. apply list_elem_of_further, list_elem_of_here.
Qed.

Lemma resolveDomain_first_match_witness :
  resolveDomain (Name "ALPHA") two_alphas = (Ok 1, two_alphas)
  ∧ resolveDomain (Name "beta") two_alphas
    = (Throw (DomainNotFound (Name "beta")), two_alphas).
Proof.
  destruct (resolveDomain_first_match two_alphas) as (_ & Hfirst & _ & Hnone).
  split.
  - apply (Hfirst "ALPHA" 0%nat alpha); [reflexivity|reflexivity|].
    intros j D' Hj. lia.
  - apply Hnone. intros D HD. vm_compute in HD.
    apply elem_of_cons in HD as [->|HD]; [discriminate|].
    apply list_elem_of_singleton in HD as ->. discriminate.
Defined.

(** C7 fails as stated: on a fresh registry [registerProvider(1, P)]
    and [registerSigner(1, S)] throw because id 1 is not registered. *)
Lemma unregistered_id_rejected :
  registerProvider (Num 1) P (new : Registry)
    = (Throw (NotFound "Domain" (Num 1)), new)
  ∧ registerSigner (Num 1) S (new : Registry)
    = (Throw (NotFound "Domain" (Num 1)), new)
  ∧ ¬ (∀ (st : Registry) n p, (registerProvider (Num n) p st).1 = Ok ()).
Proof.
  split_and!; [reflexivity|reflexivity|].
  intros H. specialize (H new 1 P). discriminate.
Qed.

Lemma numeric_id_operations_witness :
  registerProvider (Num 5) P alpha_with_S
    = (Throw (NotFound "Domain" (Num 5)), alpha_with_S)
  ∧ registerSigner (Num 5) W alpha_with_S = (Throw MissingProvider, alpha_with_S).
Proof.
  destruct (numeric_id_operations alpha_with_S 5) as (_&_&_&_&_&_&_&_&H).
  destruct H as [Hp Hs]; [reflexivity|].
  split; [apply Hp|apply (Hs W); reflexivity].
Defined.

End ResolveWitnesses.

Section ConnectionClaims.

Context {Provider Signer : Type} `{!Ethers Provider Signer} {js : JsString}.
Implicit Types st : MultiProvider Provider Signer.
Implicit Types nd : NameOrDomain.

(** What a successful [registerProvider] leaves behind. *)
Lemma registerProvider_ok nd provider st st' :
  wf_domains st →
  registerProvider nd provider st = (Ok (), st') →
  ∃ k, (resolveDomain nd st).1 = Ok k
       ∧ is_Some (JsMap.get k (domains st))
       ∧ domains st' = domains st
       ∧ providers st' = <[k := provider]> (providers st).
Proof.
  intros Hwf. rewrite registerProvider_run.
  destruct (resolveDomain nd st).1 as [k|e]; [|done].
  destruct (JsMap.get k (domains st)) as [d|] eqn:Hd; [|done].
  rewrite (wf_domains_get st k d) by done.
  intros Hrun. exists k. split_and!; [done|by eexists| |].
  - destruct (signers st !! k) as [signer|].
    + destruct (connect signer provider).
      * by injection Hrun as <-.
      * destruct (signer_provider signer); [|done]. by injection Hrun as <-.
    + by injection Hrun as <-.
  - destruct (signers st !! k) as [signer|].
    + destruct (connect signer provider).
      * by injection Hrun as <-.
      * destruct (signer_provider signer); [|done]. by injection Hrun as <-.
    + by injection Hrun as <-.
Qed.

(** The statements after the [try] block, for a signer carrying [P'], on
    a registered domain whose previous signer (if any) can be rebound to
    [P'] or dropped. *)
Lemma registerSigner_fallback_ok domain S P' st :
  signer_provider S = Some P' →
  wf_domains st →
  is_Some (JsMap.get domain (domains st)) →
  (∀ S0, signers st !! domain = Some S0 →
         is_Some (connect S0 P') ∨ is_Some (signer_provider S0)) →
  registerSigner_fallback domain S st =
    (Ok (), set_providers <[domain := P']> (set_signers <[domain := S]> st)).
Proof.
  intros HP' Hwf [d Hd] Hold.
  unfold registerSigner_fallback, mbind, M_bind, bind. rewrite HP'.
  rewrite registerProvider_run, resolveDomain_Num. cbn [fst]. rewrite Hd.
  rewrite (wf_domains_get st domain d) by done.
  destruct (signers st !! domain) as [S0|] eqn:HS0; [|reflexivity].
  destruct (connect S0 P') as [S0'|] eqn:Hc0.
  - unfold modify, set_providers, set_signers. simpl.
    by rewrite insert_insert_eq.
  - destruct (Hold S0 eq_refl) as [[? ?]|[p0 Hp0]]; [congruence|].
    rewrite Hp0. unfold modify, set_providers, set_signers. simpl.
    by rewrite insert_delete_eq.
Qed.

(** C3.  Two successful [registerProvider] calls in a row on the same
    domain leave the second provider.  On a registered domain whose
    stored signer [S] carries a provider, [registerProvider(d, P2)]
    succeeds and afterwards [getProvider] is [P2] and [getSigner] is
    [S.connect(P2)]: the rebound signer when [S] rebinds, undefined
    when it does not. *)
Theorem registerProvider_replaces nd st :
  wf_domains st →
  (∀ P1 P2 st1 st2,
     registerProvider nd P1 st = (Ok (), st1) →
     registerProvider nd P2 st1 = (Ok (), st2) →
     getProvider nd st2 = (Ok (Some P2), st2))
  ∧ (∀ domain S P1 P2,
       (resolveDomain nd st).1 = Ok domain →
       is_Some (JsMap.get domain (domains st)) →
       signers st !! domain = Some S →
       signer_provider S = Some P1 →
       ∃ st', registerProvider nd P2 st = (Ok (), st')
              ∧ getProvider nd st' = (Ok (Some P2), st')
              ∧ getSigner nd st' = (Ok (connect S P2), st')
              ∧ (∀ S', connect S P2 = Some S' →
                       getSigner nd st' = (Ok (Some S'), st'))
              ∧ (connect S P2 = None → getSigner nd st' = (Ok None, st'))).
Proof.
  intros Hwf. split.
  - intros P1 P2 st1 st2 H1 H2.
    destruct (registerProvider_ok _ _ _ _ Hwf H1) as (k & Hk & _ & Hd1 & _).
    assert (wf_domains st1) as Hwf1 by (unfold wf_domains; by rewrite Hd1).
    destruct (registerProvider_ok _ _ _ _ Hwf1 H2) as (k' & Hk' & _ & Hd2 & Hp2).
    unfold getProvider. rewrite getFromMap_run.
    rewrite (resolveDomain_ext nd st2 st1) by done. rewrite Hk'.
    unfold providers_get. by rewrite Hp2, lookup_insert_eq.
  - intros domain S P1 P2 Hr [d Hd] Hs Hsp.
    rewrite registerProvider_run, Hr, Hd.
    rewrite (wf_domains_get st domain d) by done. rewrite Hs, Hsp.
    unfold getProvider, getSigner.
    destruct (connect S P2) as [S'|] eqn:Hc.
    + eexists. split; [done|]. rewrite !getFromMap_run.
      rewrite (resolveDomain_ext nd _ st) by done. rewrite Hr.
      unfold providers_get, signers_get. simpl.
      rewrite !lookup_insert_eq. split_and!; [done|done| |done].
      by intros ? [= <-].
    + eexists. split; [done|]. rewrite !getFromMap_run.
      rewrite (resolveDomain_ext nd _ st) by done. rewrite Hr.
      unfold providers_get, signers_get. simpl.
      rewrite lookup_insert_eq, lookup_delete_eq. by split_and!.
Qed.


(** A name that matches the only registered domain resolves to it. *)
Lemma resolveDomain_single (s : string) (d : Domain) st :
  JsMap.values (domains st) = [d] →
  toLowerCase (name d) = toLowerCase s →
  resolveDomain (Name s) st = (Ok (id d), st).
Proof.
  intros Hd Hm. unfold resolveDomain, mbind, M_bind, bind, gets.
  rewrite Hd. by rewrite filter_cons_True.
Qed.

(** C8, as the code has it.  After [registerDomain({id:1, name:"alpha"})]
    and [registerProvider(1, P)], [registerSigner("Alpha", S)] for a
    signer [S] that cannot be rebound and carries [P] raises no error and
    leaves [getSigner(1)] equal to [S] itself, with [P] still the
    provider; the [try] block of the provider-present branch ends in the
    [catch], and the signer is stored by the fallback statements. *)
Theorem scenario_signer_stored_by_fallback (P : Provider) (S : Signer) :
  connect S P = None →
  signer_provider S = Some P →
  let st := after [RegisterDomain {| id := 1; name := "alpha" |};
                   RegisterProvider (Num 1) P] new in
  ∃ st', registerSigner (Name "Alpha") S st = (Ok (), st')
         ∧ getSigner (Num 1) st' = (Ok (Some S), st')
         ∧ getProvider (Num 1) st' = (Ok (Some P), st')
         ∧ registerSigner_try 1 S P st = (Ok (Caught S), st)
         ∧ registerSigner (Name "Alpha") S st = registerSigner_fallback 1 S st.
Proof.
  intros Hc Hp st.
  assert (st = set_providers <[1 := P]>
                 (set_domains (JsMap.set 1 {| id := 1; name := "alpha" |}) new))
    as Hst by reflexivity.
  assert ((resolveDomain (Name "Alpha") st).1 = Ok 1) as Hr.
  { rewrite (resolveDomain_single "Alpha" {| id := 1; name := "alpha" |} st);
      [done|done|].
    simpl. by rewrite !toLowerCase_ascii. }
  assert (providers st !! 1 = Some P) as HP.
  { rewrite Hst. simpl. apply lookup_insert_eq. }
  assert (registerSigner_try 1 S P st = (Ok (Caught S), st)) as Htry.
  { unfold registerSigner_try. by rewrite Hc. }
  assert (registerSigner (Name "Alpha") S st = registerSigner_fallback 1 S st)
    as Hfall by (by rewrite registerSigner_run, Hr, HP, Hc).
  eexists. split_and!.
  - rewrite Hfall. apply (registerSigner_fallback_ok 1 S P); [done| | |].
    + rewrite Hst. apply Forall_cons; split; [done|apply Forall_nil_2].
    + by eexists.
    + intros S0. rewrite Hst. simpl. by rewrite lookup_empty.
  - unfold getSigner. rewrite getFromMap_run. simpl.
    unfold signers_get. simpl. by rewrite lookup_insert_eq.
  - unfold getProvider. rewrite getFromMap_run. simpl.
    unfold providers_get. simpl. by rewrite lookup_insert_eq.
  - exact Htry.
  - exact Hfall.
Qed.

End ConnectionClaims.

Section ClearSigners.

Context {Provider Signer : Type} `{!Ethers Provider Signer} {js : JsString}.
Implicit Types st : MultiProvider Provider Signer.
Implicit Types nd : NameOrDomain.




End ClearSigners.

Section ConnectionWitnesses.

Import EthersModel Scenario.

#[local] Existing Instance ascii_strings.

Lemma ethers_connect_binds : connect_binds (Provider := provider) (Signer := signer).
Proof. intros [k a|a addr|addr] s' p; simpl; [by intros [= <-]|done|done]. Defined.


Lemma registerProvider_replaces_witness :
  getProvider (Num 1) (after [RegisterProvider (Num 1) P2] alpha_with_P)
    = (Ok (Some P2), after [RegisterProvider (Num 1) P2] alpha_with_P)
  ∧ ∃ st', registerProvider (Name "alpha") P2 alpha_with_S = (Ok (), st')
           ∧ getProvider (Name "alpha") st' = (Ok (Some P2), st')
           ∧ getSigner (Name "alpha") st' = (Ok None, st').
Proof.
  split.
  - destruct (registerProvider_replaces (Num 1)
                (after [RegisterDomain alpha] (new : Registry))) as [Hlast _].
    { apply Forall_cons; split; [reflexivity|apply Forall_nil_2]. }
    apply (Hlast P P2 alpha_with_P); reflexivity.
  - destruct (registerProvider_replaces (Name "alpha") alpha_with_S) as [_ Hsig].
    { apply Forall_cons; split; [reflexivity|apply Forall_nil_2]. }
    destruct (Hsig 1 S P P2) as (st' & Hrun & Hp & _ & _ & Hnone);
      [reflexivity|by eexists|reflexivity|reflexivity|].
    exists st'. split_and!; [exact Hrun|exact Hp|apply Hnone; reflexivity].
Defined.



(** C8 fails as stated: in the scenario the signer cannot be bound, so
    the [try] block of the provider-present branch ends in its [catch]
    and stores nothing. *)
Lemma scenario_bind_branch_fails :
  connect S P = None
  ∧ registerSigner_try 1 S P alpha_with_P = (Ok (Caught S), alpha_with_P)
  ∧ ¬ (∃ st' : Registry,
         registerSigner (Name "Alpha") S alpha_with_P = (Ok (), st')
         ∧ getSigner (Num 1) st' = (Ok (Some S), st')
         ∧ (registerSigner_try 1 S P alpha_with_P).1 = Ok Returned).
Proof.
  split_and!; [reflexivity|reflexivity|].
  intros (st' & _ & _ & Hret). discriminate Hret.
Qed.

Lemma scenario_signer_stored_by_fallback_witness :
  ∃ st' : Registry,
    registerSigner (Name "Alpha") S alpha_with_P = (Ok (), st')
    ∧ getSigner (Num 1) st' = (Ok (Some S), st')
    ∧ getProvider (Num 1) st' = (Ok (Some P), st').
Proof.
  destruct (scenario_signer_stored_by_fallback P S)
    as (st' & Hrun & Hs & Hp & _); [reflexivity|reflexivity|].
  exists st'. split_and!; [exact Hrun|exact Hs|exact Hp].
Defined.



End ConnectionWitnesses.

(** * Further properties of the class *)

(** ** The domain directory *)
Module DirectoryFacts.
Import JsMap.

Lemma NoDup_keys_set {V} k (v : V) m : NoDup (keys m) → NoDup (keys (set k v m)).
Proof.
  intros Hnd. rewrite JsMapFacts.keys_set. case_decide as Hin; [done|].
  apply NoDup_app. split_and!; [done| |apply NoDup_singleton].
  intros x Hx ->%list_elem_of_singleton. done.
Qed.

Lemma get_of_elem {V} k (v : V) m : NoDup (keys m) → (k, v) ∈ m → get k m = Some v.
Proof.
  unfold keys. induction m as [|[k' v'] m IH]; simpl; intros Hnd Hin.
  - by apply elem_of_nil in Hin.
  - apply NoDup_cons in Hnd as [Hk' Hnd].
    apply elem_of_cons in Hin as [[= -> ->]|Hin].
    + by rewrite Z.eqb_refl.
    + destruct (Z.eqb_spec k k') as [->|Hne]; [|by apply IH].
      destruct Hk'. apply list_elem_of_fmap. by exists (k', v).
Qed.

Lemma filter_others_absent (l : list Z) d :
  d ∉ l → filter (λ x, x ≠ d) l = l.
Proof.
  induction l as [|a l IH]; intros Hd; [done|].
  apply not_elem_of_cons in Hd as [Hne Hd].
  rewrite filter_cons_True by done. by rewrite IH.
Qed.

(** A list without duplicates is, up to order, one of its elements
    followed by the others. *)
Lemma filter_others_Permutation (l : list Z) d :
  NoDup l → d ∈ l → l ≡ₚ d :: filter (λ x, x ≠ d) l.
Proof.
  induction l as [|a l IH]; intros Hnd Hin; [by apply elem_of_nil in Hin|].
  apply NoDup_cons in Hnd as [Ha Hnd].
  destruct (decide (a = d)) as [->|Hne].
  - rewrite filter_cons_False by (by intros ?).
    by rewrite filter_others_absent.
  - rewrite filter_cons_True by done.
    apply elem_of_cons in Hin as [->|Hin]; [done|].
    rewrite (IH Hnd Hin) at 1. apply Permutation_swap.
Qed.

End DirectoryFacts.

Section Directory.

Context {Provider Signer : Type} `{!Ethers Provider Signer} {js : JsString}.
Implicit Types st : MultiProvider Provider Signer.
Implicit Types nd : NameOrDomain.

Local Abbreviation keeps I m :=
  (preserves (Provider := Provider) (Signer := Signer) I m) (only parsing).

(** Only [registerDomain] writes the directory. *)
Lemma unregisterSigner_domains ds nd :
  keeps (λ st, domains st = ds) (unregisterSigner nd).
Proof.
  intros st Hst. rewrite unregisterSigner_run.
  destruct (resolveDomain nd st).1 as [domain|e]; [|done].
  destruct (signers st !! domain) as [signer|]; [|done].
  destruct (signer_provider signer) as [p|]; [|done]. simpl.
  by destruct (providers st !! domain).
Qed.

Lemma registerProvider_domains ds nd provider :
  keeps (λ st, domains st = ds) (registerProvider nd provider).
Proof.
  intros st Hst. rewrite registerProvider_run.
  destruct (resolveDomain nd st).1 as [k|e]; [|done].
  destruct (JsMap.get k (domains st)) as [d|]; [|done].
  destruct (signers st !! id d) as [signer|]; [|done].
  destruct (connect signer provider) as [s|]; [done|].
  by destruct (signer_provider signer).
Qed.

Lemma registerSigner_fallback_domains ds domain signer :
  keeps (λ st, domains st = ds) (registerSigner_fallback domain signer).
Proof.
  unfold registerSigner_fallback.
  destruct (signer_provider signer) as [p|]; [|by intros st].
  apply preserves_bind; [apply registerProvider_domains|]. by intros _ st.
Qed.

Lemma registerSigner_domains ds nd signer :
  keeps (λ st, domains st = ds) (registerSigner nd signer).
Proof.
  intros st Hst. rewrite registerSigner_run.
  destruct (resolveDomain nd st).1 as [domain|e]; [|done].
  destruct (providers st !! domain) as [provider|].
  - destruct (connect signer provider) as [signer1|].
    + destruct (connect signer1 provider) as [signer2|]; [done|].
      by apply registerSigner_fallback_domains.
    + by apply registerSigner_fallback_domains.
  - destruct (signer_provider signer); [|done].
    by apply registerSigner_fallback_domains.
Qed.

Lemma call_domains op st :
  domains (call op st).2 =
    match op with
    | RegisterDomain d => JsMap.set (id d) d (domains st)
    | _ => domains st
    end.
Proof.
  assert (keeps (λ st', domains st' = domains st) (call op) →
          domains (call op st).2 = domains st) as Hsame
    by (intros Hk; by apply Hk).
  destruct op as [d|nd p|nd rpc|nd s|nd k| nd| |nd o|nd c]; simpl.
  - done.
  - apply Hsame, registerProvider_domains.
  - apply Hsame, preserves_bind; [apply preserves_resolveDomain|].
    intros domain. destruct (existsb _ _); apply registerProvider_domains.
  - apply Hsame, registerSigner_domains.
  - apply Hsame, preserves_bind; [apply preserves_resolveDomain|].
    intros domain. destruct (Wallet k); [|by intros st'].
    apply registerSigner_domains.
  - apply Hsame, unregisterSigner_domains.
  - apply Hsame, preserves_bind; [by intros st'|].
    intros numbers. apply preserves_forEach.
    intros domain. apply unregisterSigner_domains.
  - apply Hsame, preserves_bind; [apply preserves_resolveDomain|]. by intros k st'.
  - apply Hsame, preserves_bind; [apply preserves_resolveDomain|]. by intros k st'.
Qed.

Lemma resolveDomain_Name s st :
  resolveDomain (Name s) st =
    (match filter (λ domain, toLowerCase (name domain) = toLowerCase s)
             (JsMap.values (domains st)) with
     | [] => Throw (DomainNotFound (Name s))
     | d0 :: _ => Ok (id d0)
     end, st).
Proof.
  unfold resolveDomain, mbind, M_bind, bind, gets. by destruct (filter _ _).
Qed.

Lemma knownDomain_run nd st :
  knownDomain nd st =
    (Ok match (resolveDomain nd st).1 with Ok _ => true | Throw _ => false end, st).
Proof.
  unfold knownDomain, try_catch, mbind, M_bind, bind.
  rewrite resolveDomain_run; cbn [fst]. by destruct (resolveDomain nd st).1.
Qed.

(** X1.  [registerDomain(d)] never throws; afterwards [getDomain(d.id)] is
    [d], every other id has the domain it had, and the other four maps
    are untouched. *)
Theorem registerDomain_getDomain (d : Domain) st :
  ∃ st', registerDomain d st = (Ok (), st')
         ∧ getDomain (Num (id d)) st' = (Ok (Some d), st')
         ∧ mustGetDomain (Num (id d)) st' = (Ok d, st')
         ∧ (∀ k, k ≠ id d →
                 getDomain (Num k) st' = (Ok (JsMap.get k (domains st)), st'))
         ∧ providers st' = providers st ∧ signers st' = signers st
         ∧ overrides st' = overrides st ∧ confirmations st' = confirmations st.
Proof.
  eexists. split; [reflexivity|].
  unfold getDomain, mustGetDomain. rewrite mustGetFromMap_run.
  split_and!; try done.
  - rewrite getFromMap_run. simpl. unfold domains_get. simpl.
    by rewrite JsMapFacts.get_set_eq.
  - simpl. unfold domains_get. simpl. by rewrite JsMapFacts.get_set_eq.
  - intros k Hk. rewrite getFromMap_run. simpl. unfold domains_get. simpl.
    rewrite JsMapFacts.get_set_ne; [done|congruence].
Qed.

(** X2.  [registerDomain(d)] appends [d.id] to [domainNumbers] when the id
    is new and leaves [domainNumbers] as it is when the id is already
    registered (the domain is replaced in place). *)
Theorem registerDomain_domainNumbers (d : Domain) st :
  (id d ∉ domainNumbers st →
     domainNumbers (registerDomain d st).2 = (domainNumbers st ++ [id d])%list)
  ∧ (id d ∈ domainNumbers st →
       domainNumbers (registerDomain d st).2 = domainNumbers st).
Proof.
  unfold domainNumbers. simpl. rewrite JsMapFacts.keys_set.
  split; intros Hin; by case_decide.
Qed.

(** X3.  Whatever the call, the numbers registered before it are still
    listed afterwards, in the same order and at the front: no method
    removes or reorders a domain, and a registered id keeps a domain. *)
Theorem call_domainNumbers_prefix op st :
  (domainNumbers st `prefix_of` domainNumbers (call op st).2)
  ∧ (∀ k, is_Some (JsMap.get k (domains st)) →
          is_Some (JsMap.get k (domains (call op st).2))).
Proof.
  unfold domainNumbers. rewrite call_domains.
  destruct op; try (split; [done|tauto]).
  split.
  - rewrite JsMapFacts.keys_set. case_decide; [done|]. by apply prefix_app_r.
  - intros k. rewrite !JsMapFacts.get_is_Some, JsMapFacts.keys_set.
    case_decide; [done|]. intros Hk. apply elem_of_app. by left.
Qed.

Lemma reachable_NoDup_keys st : reachable st → NoDup (JsMap.keys (domains st)).
Proof.
  induction 1 as [|st op _ IH]; [apply NoDup_nil_2|].
  rewrite call_domains.
  destruct op; try done. by apply DirectoryFacts.NoDup_keys_set.
Qed.

(** A name that resolves leads to a stored domain with that name, up to
    letter case. *)
Lemma resolveDomain_Name_get s k st :
  reachable st → (resolveDomain (Name s) st).1 = Ok k →
  ∃ D, JsMap.get k (domains st) = Some D ∧ id D = k
       ∧ toLowerCase (name D) = toLowerCase s.
Proof.
  intros Hr.
  pose proof (domains_keyed st (reachable_consistent st Hr)) as Hwf.
  pose proof (reachable_NoDup_keys st Hr) as Hnd.
  rewrite resolveDomain_Name. cbn [fst]. unfold JsMap.values.
  destruct (filter _ _) as [|d0 l] eqn:Hf; [done|]. intros [= <-].
  assert (d0 ∈ filter (λ domain, toLowerCase (name domain) = toLowerCase s)
            (map snd (domains st))) as Hin
    by (rewrite Hf; apply list_elem_of_here).
  apply list_elem_of_filter in Hin as [Hm Hin].
  apply list_elem_of_fmap in Hin as ([k d'] & -> & Hkd). simpl in *.
  unfold wf_domains in Hwf. rewrite Forall_forall in Hwf.
  pose proof (Hwf _ Hkd) as Hid. simpl in Hid. subst k.
  exists d'. split_and!; [|done|done].
  by apply DirectoryFacts.get_of_elem.
Qed.

(** X4.  In a reachable registry [domainNumbers] lists no id twice, and it
    lists exactly the ids under which [getDomain] finds a domain, each
    stored domain carrying the id it is found under. *)
Theorem reachable_domainNumbers_NoDup st :
  reachable st →
  NoDup (domainNumbers st)
  ∧ (∀ k, k ∈ domainNumbers st
          ↔ ∃ D, getDomain (Num k) st = (Ok (Some D), st))
  ∧ (∀ k D, getDomain (Num k) st = (Ok (Some D), st) → id D = k).
Proof.
  intros Hr. split_and!.
  - by apply reachable_NoDup_keys.
  - intros k. unfold domainNumbers, getDomain. rewrite getFromMap_run. simpl.
    unfold domains_get. rewrite <- JsMapFacts.get_is_Some.
    split; [intros [D ->]; by exists D|intros [D [= ->]]; by eexists].
  - intros k D. unfold getDomain. rewrite getFromMap_run. simpl.
    unfold domains_get. intros [= HD].
    apply (wf_domains_get st k D); [|done].
    apply (reachable_consistent st Hr).
Qed.

(** X5.  [remoteDomainNumbers(d)] never lists [d]; in a reachable registry
    it is [domainNumbers] itself when [d] is not registered, and otherwise
    [domainNumbers] is, up to order, [d] followed by it: exactly one entry
    is left out. *)
Theorem remoteDomainNumbers_spec d st :
  reachable st →
  (d ∉ remoteDomainNumbers d st)
  ∧ (remoteDomainNumbers d st `sublist_of` domainNumbers st)
  ∧ (d ∉ domainNumbers st → remoteDomainNumbers d st = domainNumbers st)
  ∧ (d ∈ domainNumbers st →
       domainNumbers st ≡ₚ d :: remoteDomainNumbers d st
       ∧ S (length (remoteDomainNumbers d st)) = length (domainNumbers st)).
Proof.
  intros Hnd%reachable_NoDup_keys. unfold remoteDomainNumbers.
  split_and!.
  - intros [? _]%list_elem_of_filter. done.
  - apply sublist_filter.
  - apply DirectoryFacts.filter_others_absent.
  - intros Hin.
    pose proof (DirectoryFacts.filter_others_Permutation _ d Hnd Hin) as Hp.
    split; [done|]. by rewrite Hp at 2.
Qed.

(** X6.  [knownDomain] never throws and never changes the registry.  It
    answers [true] exactly when [resolveDomain] succeeds: always for a
    number, registered or not, and for a name exactly when some
    registered domain has that name up to letter case. *)
Theorem knownDomain_spec nd st :
  ∃ b, knownDomain nd st = (Ok b, st)
       ∧ (b = true ↔ ∃ k, (resolveDomain nd st).1 = Ok k)
       ∧ (∀ n, nd = Num n → b = true)
       ∧ (∀ s, nd = Name s →
            (b = true ↔ ∃ D, D ∈ JsMap.values (domains st)
                             ∧ toLowerCase (name D) = toLowerCase s)).
Proof.
  rewrite knownDomain_run. destruct nd as [s|n].
  - rewrite resolveDomain_Name. cbn [fst].
    destruct (filter _ _) as [|d0 l] eqn:Hf.
    + exists false. split_and!; [done| |done|].
      * split; [done|]. by intros [k ?].
      * intros s' [= <-]. split; [done|]. intros (D & HD & Hm).
        assert (D ∈ filter (λ domain, toLowerCase (name domain) = toLowerCase s)
                  (JsMap.values (domains st))) as Hin
          by (by apply list_elem_of_filter).
        rewrite Hf in Hin. by apply elem_of_nil in Hin.
    + exists true. split_and!; [done| |done|].
      * split; [|done]. intros _. by eexists.
      * intros s' [= <-]. split; [|done]. intros _. exists d0.
        assert (d0 ∈ filter (λ domain, toLowerCase (name domain) = toLowerCase s)
                  (JsMap.values (domains st))) as Hin
          by (rewrite Hf; apply list_elem_of_here).
        apply list_elem_of_filter in Hin. tauto.
  - exists true. split_and!; [done| |done|done].
    split; [|done]. intros _. by exists n.
Qed.

(** X7.  In a reachable registry [domainNames] has one name per registered
    number, and every listed name resolves: [resolveDomain] returns a
    registered number, under which [mustGetDomain] finds a domain with
    that id whose name equals the listed one up to letter case. *)
Theorem domainNames_resolve st :
  reachable st →
  length (domainNames st) = length (domainNumbers st)
  ∧ ∀ s, s ∈ domainNames st →
         ∃ k D, resolveDomain (Name s) st = (Ok k, st)
                ∧ k ∈ domainNumbers st
                ∧ mustGetDomain (Name s) st = (Ok D, st)
                ∧ id D = k
                ∧ toLowerCase (name D) = toLowerCase s.
Proof.
  intros Hr. unfold domainNames, domainNumbers, JsMap.values, JsMap.keys.
  split; [by rewrite !length_map|].
  intros s (D0 & -> & HD0)%list_elem_of_fmap.
  destruct (resolveDomain (Name (name D0)) st).1 as [k|e] eqn:Hk.
  - destruct (resolveDomain_Name_get _ k st Hr Hk) as (D & HD & Hid & Hm).
    exists k, D. unfold mustGetDomain.
    rewrite mustGetFromMap_run, resolveDomain_run, Hk. cbn [fst].
    unfold domains_get. rewrite HD. split_and!; try done.
    apply (JsMapFacts.get_is_Some k (domains st)). by eexists.
  - revert Hk. rewrite resolveDomain_Name. cbn [fst].
    destruct (filter _ _) as [|d0 l] eqn:Hf; [|done].
    assert (D0 ∈ filter (λ domain, toLowerCase (name domain) = toLowerCase (name D0))
              (JsMap.values (domains st))) as Hin by (by apply list_elem_of_filter).
    rewrite Hf in Hin. by apply elem_of_nil in Hin.
Qed.

(** X8.  [resolveDomain] and [knownDomain] do not see letter case: two
    names with the same lowercase form resolve to the same number, or
    both fail. *)
Theorem resolveDomain_case_insensitive (s s' : string) st :
  toLowerCase s = toLowerCase s' →
  (∀ k, resolveDomain (Name s) st = (Ok k, st)
        ↔ resolveDomain (Name s') st = (Ok k, st))
  ∧ (resolveDomain (Name s) st = (Throw (DomainNotFound (Name s)), st)
     ↔ resolveDomain (Name s') st = (Throw (DomainNotFound (Name s')), st))
  ∧ knownDomain (Name s) st = knownDomain (Name s') st.
Proof.
  intros Hl.
  rewrite !knownDomain_run, !resolveDomain_Name. cbn [fst]. rewrite Hl.
  destruct (filter _ _) as [|d0 l]; split_and!; try done.
Qed.

(** X23.  [resolveDomainName] of a number that is not registered is
    undefined, where [mustResolveDomainName] throws [NotFound "Domain"].
    In a reachable registry a reference that resolves to a registered
    number gets the stored name of that number from both, and for a name
    this stored name equals the reference up to letter case. *)
Theorem resolveDomainName_spec nd st :
  (∀ n, nd = Num n → JsMap.get n (domains st) = None →
        resolveDomainName nd st = (Ok None, st)
        ∧ mustResolveDomainName nd st = (Throw (NotFound "Domain" nd), st))
  ∧ (∀ k D, (resolveDomain nd st).1 = Ok k →
            JsMap.get k (domains st) = Some D →
            resolveDomainName nd st = (Ok (Some (name D)), st)
            ∧ mustResolveDomainName nd st = (Ok (name D), st))
  ∧ (reachable st →
     ∀ s k, nd = Name s → (resolveDomain nd st).1 = Ok k →
            ∃ n, resolveDomainName nd st = (Ok (Some n), st)
                 ∧ mustResolveDomainName nd st = (Ok n, st)
                 ∧ toLowerCase n = toLowerCase s).
Proof.
  unfold resolveDomainName, mustResolveDomainName, getDomain, mustGetDomain,
    mbind, M_bind, bind.
  rewrite getFromMap_run, mustGetFromMap_run. unfold domains_get. split_and!.
  - intros n -> Hn. simpl. by rewrite Hn.
  - intros k D -> ->. done.
  - intros Hr s k -> Hk.
    destruct (resolveDomain_Name_get s k st Hr Hk) as (D & HD & _ & Hm).
    exists (name D). by rewrite Hk, HD.
Qed.

End Directory.

(** ** Lookups *)
Section Lookups.

Context {Provider Signer : Type} `{!Ethers Provider Signer} {js : JsString}.
Implicit Types st : MultiProvider Provider Signer.
Implicit Types nd : NameOrDomain.

Lemma resolveDomain_error nd st e :
  (resolveDomain nd st).1 = Throw e → e = DomainNotFound nd.
Proof.
  destruct nd as [s|n]; [|done]. rewrite resolveDomain_Name. cbn [fst].
  destruct (filter _ _); [|done]. by intros [= <-].
Qed.

Lemma getConnection_run nd st :
  getConnection nd st =
    match (resolveDomain nd st).1 with
    | Throw e => (Throw e, st)
    | Ok k =>
        (Ok match signers st !! k with
            | Some s => Some (inl s)
            | None => inr <$> providers st !! k
            end, st)
    end.
Proof.
  unfold getConnection, getSigner, getProvider, mbind, M_bind, bind.
  rewrite getFromMap_run.
  destruct (resolveDomain nd st).1 as [k|e] eqn:Hr; [|done].
  unfold signers_get. destruct (signers st !! k); [done|].
  rewrite getFromMap_run, Hr. done.
Qed.

(** X9.  The lookups never change the registry, whether they return or
    throw. *)
Theorem lookups_read_only nd st :
  (resolveDomain nd st).2 = st ∧ (knownDomain nd st).2 = st
  ∧ (getDomain nd st).2 = st ∧ (mustGetDomain nd st).2 = st
  ∧ (resolveDomainName nd st).2 = st ∧ (mustResolveDomainName nd st).2 = st
  ∧ (getProvider nd st).2 = st ∧ (mustGetProvider nd st).2 = st
  ∧ (getSigner nd st).2 = st ∧ (mustGetSigner nd st).2 = st
  ∧ (getConnection nd st).2 = st ∧ (mustGetConnection nd st).2 = st
  ∧ (getOverrides nd st).2 = st ∧ (getConfirmations nd st).2 = st.
Proof.
  assert (∀ T (map : MultiProvider Provider Signer → Z → option T) tname,
            (mustGetFromMap object_truthy nd map tname st).2 = st) as Hmust.
  { intros T map tname. rewrite mustGetFromMap_run.
    destruct (resolveDomain nd st).1; [|done]. by destruct (map st a). }
  split_and!.
  - by rewrite resolveDomain_run.
  - by rewrite knownDomain_run.
  - apply getFromMap_state.
  - apply Hmust.
  - unfold resolveDomainName, getDomain, mbind, M_bind, bind.
    rewrite getFromMap_run. by destruct (resolveDomain nd st).1.
  - unfold mustResolveDomainName, mustGetDomain, mbind, M_bind, bind.
    rewrite mustGetFromMap_run. destruct (resolveDomain nd st).1; [|done].
    by destruct (domains_get st a).
  - apply getFromMap_state.
  - apply Hmust.
  - apply getFromMap_state.
  - apply Hmust.
  - rewrite getConnection_run. by destruct (resolveDomain nd st).1.
  - unfold mustGetConnection, mbind, M_bind, bind. rewrite getConnection_run.
    destruct (resolveDomain nd st).1 as [k|e]; [|done].
    destruct (signers st !! k); [done|]. by destruct (providers st !! k).
  - unfold getOverrides, mbind, M_bind, bind. rewrite getFromMap_run.
    by destruct (resolveDomain nd st).1.
  - unfold getConfirmations, mbind, M_bind, bind. rewrite getFromMap_run.
    by destruct (resolveDomain nd st).1.
Qed.

(** X10.  A [must] lookup returns [v] exactly when the plain lookup returns
    a truthy [v]; it throws [NotFound] with its type name exactly when the
    plain lookup returns undefined or a falsy value; and it passes on the
    error of a failed resolution, which is always [DomainNotFound].  At
    the maps of objects, whose values are never falsy, it returns
    whatever the plain lookup finds. *)
Theorem mustGetFromMap_spec {T} (truthy : T → bool) nd
    (map : MultiProvider Provider Signer → Z → option T) (tname : string) st :
  (∀ v, mustGetFromMap truthy nd map tname st = (Ok v, st)
        ↔ getFromMap nd map st = (Ok (Some v), st) ∧ truthy v = true)
  ∧ (mustGetFromMap truthy nd map tname st = (Throw (NotFound tname nd), st)
     ↔ getFromMap nd map st = (Ok None, st)
       ∨ ∃ v, getFromMap nd map st = (Ok (Some v), st) ∧ truthy v = false)
  ∧ (∀ e, getFromMap nd map st = (Throw e, st) →
          e = DomainNotFound nd
          ∧ mustGetFromMap truthy nd map tname st = (Throw e, st))
  ∧ (∀ v, mustGetFromMap object_truthy nd map tname st = (Ok v, st)
          ↔ getFromMap nd map st = (Ok (Some v), st)).
Proof.
  rewrite mustGetFromMap_run, mustGetFromMap_truthy_run, getFromMap_run.
  destruct (resolveDomain nd st).1 as [k|e] eqn:Hr.
  - destruct (map st k) as [v0|].
    + destruct (truthy v0) eqn:Hv0; split_and!.
      * intros v. split; [by intros [= <-]|by intros [[= <-] _]].
      * split; [done|]. intros [?|(v & [= <-] & Hv)]; [done|congruence].
      * done.
      * intros v. split; by intros [= <-].
      * intros v. split; [done|]. intros [[= <-] Hv]. congruence.
      * split; [|done]. intros _. right. by exists v0.
      * done.
      * intros v. split; by intros [= <-].
    + split_and!; try done.
      * intros v. split; [done|by intros [? _]].
      * split; [by left|done].
  - split_and!; try done.
    + intros v. split; [done|by intros [? _]].
    + split.
      * intros [= ->]. by pose proof (resolveDomain_error nd st _ Hr).
      * intros [?|(v & ? & _)]; done.
    + intros e' [= <-]. split; [by apply (resolveDomain_error nd st)|done].
Qed.

(** X11.  For a reference that resolves to [k], [getConnection] returns the
    signer of [k] when there is one, else the provider of [k], else
    undefined; [mustGetConnection] throws [ConnectionNotFound] exactly
    when [k] has neither.  In a reachable registry a connection exists
    exactly when a provider is registered. *)
Theorem getConnection_spec nd k st :
  (resolveDomain nd st).1 = Ok k →
  (∀ s, signers st !! k = Some s →
        getConnection nd st = (Ok (Some (inl s)), st)
        ∧ mustGetConnection nd st = (Ok (inl s), st))
  ∧ (∀ p, signers st !! k = None → providers st !! k = Some p →
          getConnection nd st = (Ok (Some (inr p)), st)
          ∧ mustGetConnection nd st = (Ok (inr p), st))
  ∧ (signers st !! k = None ∧ providers st !! k = None
     ↔ mustGetConnection nd st = (Throw (ConnectionNotFound nd), st))
  ∧ (signers st !! k = None ∧ providers st !! k = None
     ↔ getConnection nd st = (Ok None, st))
  ∧ (reachable st →
     ((∃ c, mustGetConnection nd st = (Ok c, st)) ↔ is_Some (providers st !! k))).
Proof.
  intros Hr. unfold mustGetConnection, mbind, M_bind, bind.
  rewrite getConnection_run, Hr. split_and!.
  - by intros s ->.
  - by intros p -> ->.
  - destruct (signers st !! k); [split; [by intros [? ?]|done]|].
    destruct (providers st !! k); simpl; [split; [by intros [? ?]|done]|done].
  - destruct (signers st !! k); [split; [by intros [? ?]|done]|].
    destruct (providers st !! k); simpl; [split; [by intros [? ?]|done]|done].
  - intros Hc%reachable_consistent.
    destruct (signers st !! k) as [s|] eqn:Hs.
    + split; [|by eexists]. intros _.
      apply (signer_has_provider_entry st Hc). by eexists.
    + destruct (providers st !! k); simpl.
      * split; [by eexists|]. by eexists.
      * split; [by intros [? ?]|by intros [? ?]].
Qed.

(** X12.  Policy round trip.  For a reference that resolves to [k],
    [registerOverrides] and [registerConfirmations] succeed, write the
    entry of [k] only and touch no other map; the matching getter then
    returns the value just stored ([0] included), and the policy of every
    other id reads as before.  With a name that does not resolve both
    setters throw [DomainNotFound] and change nothing. *)
Theorem policy_round_trip nd st :
  (∀ k, (resolveDomain nd st).1 = Ok k →
     (∀ o, ∃ st', registerOverrides nd o st = (Ok (), st')
                  ∧ getOverrides nd st' = (Ok o, st')
                  ∧ overrides st' = <[k := o]> (overrides st)
                  ∧ (∀ k', k' ≠ k →
                       (getOverrides (Num k') st').1 = (getOverrides (Num k') st).1)
                  ∧ domains st' = domains st ∧ providers st' = providers st
                  ∧ signers st' = signers st
                  ∧ confirmations st' = confirmations st)
     ∧ (∀ c, ∃ st', registerConfirmations nd c st = (Ok (), st')
                    ∧ getConfirmations nd st' = (Ok c, st')
                    ∧ confirmations st' = <[k := c]> (confirmations st)
                    ∧ (∀ k', k' ≠ k →
                         (getConfirmations (Num k') st').1
                         = (getConfirmations (Num k') st).1)
                    ∧ domains st' = domains st ∧ providers st' = providers st
                    ∧ signers st' = signers st
                    ∧ overrides st' = overrides st))
  ∧ (∀ e, (resolveDomain nd st).1 = Throw e →
       (∀ o, registerOverrides nd o st = (Throw (DomainNotFound nd), st))
       ∧ (∀ c, registerConfirmations nd c st = (Throw (DomainNotFound nd), st))).
Proof.
  unfold registerOverrides, registerConfirmations, setMap, getOverrides,
    getConfirmations, mbind, M_bind, bind.
  rewrite resolveDomain_run; cbn [fst]. split.
  - intros k Hr. rewrite Hr. split.
    + intros o. eexists. split; [reflexivity|].
      rewrite getFromMap_run.
      rewrite (resolveDomain_ext nd _ st) by done. rewrite Hr.
      unfold overrides_get, modify. simpl. rewrite lookup_insert_eq.
      split_and!; try done.
      intros k' Hk'. by rewrite lookup_insert_ne.
    + intros c. eexists. split; [reflexivity|].
      rewrite getFromMap_run.
      rewrite (resolveDomain_ext nd _ st) by done. rewrite Hr.
      unfold confirmations_get, modify. simpl. rewrite lookup_insert_eq.
      split_and!; try done.
      * by destruct (Z.eqb_spec c 0) as [->|].
      * intros k' Hk'. by rewrite lookup_insert_ne.
  - intros e Hr. rewrite Hr.
    by rewrite (resolveDomain_error nd st e Hr).
Qed.

End Lookups.

(** ** The connection registry *)
Section Registry.

Context {Provider Signer : Type} `{!Ethers Provider Signer} {js : JsString}.
Implicit Types st : MultiProvider Provider Signer.
Implicit Types nd : NameOrDomain.

(** A name resolves to the key of a stored domain. *)
Lemma resolveDomain_Name_registered s k st :
  wf_domains st → (resolveDomain (Name s) st).1 = Ok k →
  is_Some (JsMap.get k (domains st)).
Proof.
  intros Hwf. rewrite resolveDomain_Name. cbn [fst].
  destruct (filter _ _) as [|d0 l] eqn:Hf; [done|]. intros [= <-].
  assert (d0 ∈ filter (λ domain, toLowerCase (name domain) = toLowerCase s)
            (JsMap.values (domains st))) as Hin
    by (rewrite Hf; apply list_elem_of_here).
  apply list_elem_of_filter in Hin as [_ Hin].
  apply list_elem_of_fmap in Hin as ([k d'] & -> & Hkd).
  unfold wf_domains in Hwf. rewrite Forall_forall in Hwf.
  pose proof (Hwf _ Hkd) as Hid. simpl in *. subst k.
  apply JsMapFacts.get_is_Some. apply list_elem_of_fmap. by exists (id d', d').
Qed.

(** Resolving first and passing the number on is the same as passing
    the reference. *)
Lemma registerProvider_resolved nd k provider st :
  wf_domains st → (resolveDomain nd st).1 = Ok k →
  registerProvider (Num k) provider st = registerProvider nd provider st.
Proof.
  intros Hwf Hr. destruct nd as [s|n]; [|by injection Hr as ->].
  rewrite !registerProvider_run, resolveDomain_Num, Hr. cbn [fst].
  by destruct (resolveDomain_Name_registered s k st Hwf Hr) as [d ->].
Qed.

Lemma registerSigner_resolved nd k signer st :
  (resolveDomain nd st).1 = Ok k →
  registerSigner (Num k) signer st = registerSigner nd signer st.
Proof. intros Hr. by rewrite !registerSigner_run, resolveDomain_Num, Hr. Qed.

(** X13.  [registerRpcProvider] is [registerProvider] with a provider built
    from the URL: the Celo provider exactly when the reference is the
    string ["alfajores"] or ["celo"] as written, so not for another
    letter case of these names nor for the number of the Celo domain, and
    the plain JSON-RPC provider otherwise.  When it succeeds [getProvider]
    returns that provider. *)
Theorem registerRpcProvider_spec nd rpc st :
  wf_domains st →
  registerRpcProvider nd rpc st = registerProvider nd (rpc_provider nd rpc) st
  ∧ (nd = Name "alfajores" ∨ nd = Name "celo" →
       rpc_provider nd rpc = StaticCeloJsonRpcProvider rpc)
  ∧ (nd ≠ Name "alfajores" → nd ≠ Name "celo" →
       rpc_provider nd rpc = StaticJsonRpcProvider rpc)
  ∧ (∀ st', registerRpcProvider nd rpc st = (Ok (), st') →
            getProvider nd st' = (Ok (Some (rpc_provider nd rpc)), st')).
Proof.
  intros Hwf.
  assert (registerRpcProvider nd rpc st
          = registerProvider nd (rpc_provider nd rpc) st) as Heq.
  { unfold registerRpcProvider, rpc_provider, mbind, M_bind, bind.
    rewrite resolveDomain_run; cbn [fst].
    destruct (resolveDomain nd st).1 as [k|e] eqn:Hr.
    - destruct (existsb _ _); by apply registerProvider_resolved.
    - by rewrite registerProvider_run, Hr. }
  split_and!.
  - exact Heq.
  - by intros [->| ->].
  - intros Ha Hc. unfold rpc_provider, celoNames. simpl.
    destruct nd as [s|n]; [|done]. simpl.
    rewrite !bool_decide_eq_false_2; [done| |]; congruence.
  - intros st'. rewrite Heq. intros Hrun.
    destruct (registerProvider_ok _ _ _ _ Hwf Hrun) as (k & Hk & _ & Hd & Hp).
    unfold getProvider. rewrite getFromMap_run.
    rewrite (resolveDomain_ext nd st' st) by done. rewrite Hk.
    unfold providers_get. by rewrite Hp, lookup_insert_eq.
Qed.

(** X14.  [registerWalletSigner] is [registerSigner] with the wallet built
    from the key.  A key the wallet constructor rejects makes the call
    throw without changing the registry; a reference that does not
    resolve fails before the wallet is built; and a wallet that carries no
    provider is refused with [MissingProvider] on a domain without a
    registered provider. *)
Theorem registerWalletSigner_spec nd privkey st :
  (∀ w, Wallet privkey = Some w →
        registerWalletSigner nd privkey st = registerSigner nd w st)
  ∧ (∀ k, Wallet privkey = None → (resolveDomain nd st).1 = Ok k →
          registerWalletSigner nd privkey st = (Throw WalletFailed, st))
  ∧ (∀ e, (resolveDomain nd st).1 = Throw e →
          registerWalletSigner nd privkey st = (Throw (DomainNotFound nd), st))
  ∧ (∀ w k, Wallet privkey = Some w → signer_provider w = None →
            (resolveDomain nd st).1 = Ok k → providers st !! k = None →
            registerWalletSigner nd privkey st = (Throw MissingProvider, st)).
Proof.
  unfold registerWalletSigner, mbind, M_bind, bind.
  rewrite resolveDomain_run; cbn [fst]. split_and!.
  - intros w ->. destruct (resolveDomain nd st).1 as [k|e] eqn:Hr.
    + by apply registerSigner_resolved.
    + by rewrite registerSigner_run, Hr.
  - by intros k -> ->.
  - intros e Hr. rewrite Hr. by rewrite (resolveDomain_error nd st e Hr).
  - intros w k -> Hw Hr Hp. rewrite Hr.
    rewrite registerSigner_run, resolveDomain_Num. cbn [fst]. by rewrite Hp, Hw.
Qed.

(** X15.  Every method but [clearSigners] is all-or-nothing: when the call
    throws, the registry is as it was before the call. *)
Theorem throw_leaves_state op st e :
  op ≠ ClearSigners →
  (call op st).1 = Throw e → (call op st).2 = st.
Proof.
  assert (∀ nd p, (registerProvider nd p st).1 = Throw e →
                  (registerProvider nd p st).2 = st) as Hprov.
  { intros nd p. rewrite registerProvider_run.
    destruct (resolveDomain nd st).1 as [k|e']; [|done].
    destruct (JsMap.get k (domains st)) as [d|]; [|done].
    destruct (signers st !! id d) as [signer|]; [|done].
    destruct (connect signer p); [done|].
    by destruct (signer_provider signer). }
  assert (∀ domain s, (registerSigner_fallback domain s st).1 = Throw e →
                      (registerSigner_fallback domain s st).2 = st) as Hfall.
  { intros domain s. unfold registerSigner_fallback, mbind, M_bind, bind.
    destruct (signer_provider s) as [p|]; [|done].
    specialize (Hprov (Num domain) p).
    by destruct (registerProvider (Num domain) p st) as [[[]|e'] st']. }
  assert (∀ nd s, (registerSigner nd s st).1 = Throw e →
                  (registerSigner nd s st).2 = st) as Hsig.
  { intros nd s. rewrite registerSigner_run.
    destruct (resolveDomain nd st).1 as [domain|e']; [|done].
    destruct (providers st !! domain) as [provider|].
    - destruct (connect s provider) as [s1|]; [|apply Hfall].
      destruct (connect s1 provider); [done|apply Hfall].
    - destruct (signer_provider s); [apply Hfall|done]. }
  intros Hop. destruct op as [d|nd p|nd rpc|nd s|nd k| nd| |nd o|nd c]; simpl.
  - done.
  - apply Hprov.
  - unfold registerRpcProvider, mbind, M_bind, bind.
    rewrite resolveDomain_run; cbn [fst].
    destruct (resolveDomain nd st).1; [|done].
    destruct (existsb _ _); apply Hprov.
  - apply Hsig.
  - unfold registerWalletSigner, mbind, M_bind, bind.
    rewrite resolveDomain_run; cbn [fst].
    destruct (resolveDomain nd st).1; [|done].
    destruct (Wallet k); [apply Hsig|done].
  - rewrite unregisterSigner_run.
    destruct (resolveDomain nd st).1 as [domain|e']; [|done].
    destruct (signers st !! domain) as [signer|]; [|done].
    by destruct (signer_provider signer).
  - done.
  - unfold registerOverrides, setMap, mbind, M_bind, bind.
    rewrite resolveDomain_run; cbn [fst]. by destruct (resolveDomain nd st).1.
  - unfold registerConfirmations, setMap, mbind, M_bind, bind.
    rewrite resolveDomain_run; cbn [fst]. by destruct (resolveDomain nd st).1.
Qed.

(** X16.  In a reachable registry every id with a provider or a signer is a
    registered domain number, [mustGetDomain] succeeds on it, and
    [missingProviders] lists exactly the ids that have a provider. *)
Theorem reachable_entries_registered st :
  reachable st →
  (∀ d, is_Some (providers st !! d) →
        d ∈ domainNumbers st
        ∧ ∃ D, mustGetDomain (Num d) st = (Ok D, st) ∧ id D = d)
  ∧ (∀ d, is_Some (signers st !! d) → d ∈ domainNumbers st)
  ∧ (∀ n, n ∈ missingProviders st ↔ is_Some (providers st !! n)).
Proof.
  intros Hc%reachable_consistent. split_and!.
  - intros d Hd%(provider_has_domain st Hc). split; [done|].
    apply JsMapFacts.get_is_Some in Hd as [D HD]. exists D.
    unfold mustGetDomain. rewrite mustGetFromMap_run. simpl.
    unfold domains_get. rewrite HD. split; [done|].
    apply (wf_domains_get st d D); [apply Hc|done].
  - intros d Hd. by apply (provider_has_domain st Hc), (signer_has_provider_entry st Hc).
  - intros n. unfold missingProviders. rewrite list_elem_of_filter.
    split; [tauto|]. intros Hn. split; [done|].
    by apply (provider_has_domain st Hc).
Qed.

(** X17.  In a reachable registry [unregisterSigner] never has to promote
    the signer's provider: it leaves [providers] (and the directory) as
    they are. *)
Theorem unregisterSigner_keeps_providers nd st :
  reachable st →
  providers (unregisterSigner nd st).2 = providers st
  ∧ domains (unregisterSigner nd st).2 = domains st
  ∧ (∀ d, getProvider (Num d) (unregisterSigner nd st).2
          = (Ok (providers st !! d), (unregisterSigner nd st).2)).
Proof.
  intros Hc%reachable_consistent.
  assert (providers (unregisterSigner nd st).2 = providers st) as Hp.
  { rewrite unregisterSigner_run.
    destruct (resolveDomain nd st).1 as [domain|e]; [|done].
    destruct (signers st !! domain) as [signer|] eqn:Hs; [|done].
    destruct (signer_provider signer) as [p|]; [|done]. simpl.
    destruct (signer_has_provider_entry st Hc domain) as [p0 ->]; [by eexists|].
    done. }
  split_and!; [done| |].
  - by apply (unregisterSigner_domains (domains st) nd st).
  - intros d. unfold getProvider. rewrite getFromMap_run. simpl.
    unfold providers_get. by rewrite Hp.
Qed.

(** X18.  The connection methods work on one domain: [registerProvider],
    [registerSigner] and [unregisterSigner] on a reference that resolves
    to [k] leave the provider and the signer of every other id as they
    were. *)
Theorem connection_calls_isolated nd k st :
  wf_domains st →
  (resolveDomain nd st).1 = Ok k →
  ∀ k', k' ≠ k →
    (∀ p, providers (registerProvider nd p st).2 !! k' = providers st !! k'
          ∧ signers (registerProvider nd p st).2 !! k' = signers st !! k')
    ∧ (∀ s, providers (registerSigner nd s st).2 !! k' = providers st !! k'
            ∧ signers (registerSigner nd s st).2 !! k' = signers st !! k')
    ∧ providers (unregisterSigner nd st).2 !! k' = providers st !! k'
    ∧ signers (unregisterSigner nd st).2 !! k' = signers st !! k'.
Proof.
  intros Hwf Hr k' Hk'.
  assert (∀ p, providers (registerProvider (Num k) p st).2 !! k' = providers st !! k'
               ∧ signers (registerProvider (Num k) p st).2 !! k' = signers st !! k')
    as Hprov.
  { intros p. rewrite registerProvider_run, resolveDomain_Num. cbn [fst].
    destruct (JsMap.get k (domains st)) as [d|] eqn:Hd; [|done].
    rewrite (wf_domains_get st k d) by done.
    destruct (signers st !! k) as [signer|].
    - destruct (connect signer p).
      + simpl. by rewrite !lookup_insert_ne.
      + destruct (signer_provider signer); [|done]. simpl.
        by rewrite lookup_insert_ne, lookup_delete_ne.
    - simpl. by rewrite lookup_insert_ne. }
  assert (∀ s, providers (registerSigner_fallback k s st).2 !! k' = providers st !! k'
               ∧ signers (registerSigner_fallback k s st).2 !! k' = signers st !! k')
    as Hfall.
  { intros s. unfold registerSigner_fallback, mbind, M_bind, bind.
    destruct (signer_provider s) as [p|]; [|done].
    specialize (Hprov p).
    destruct (registerProvider (Num k) p st) as [[[]|e] st1]; [|done].
    simpl in *. by rewrite lookup_insert_ne. }
  split_and!.
  - intros p. by rewrite <- (registerProvider_resolved nd k p st).
  - intros s. rewrite registerSigner_run, Hr.
    destruct (providers st !! k) as [P|].
    + destruct (connect s P) as [s1|]; [|apply Hfall].
      destruct (connect s1 P); [|apply Hfall].
      simpl. by rewrite lookup_insert_ne.
    + destruct (signer_provider s); [apply Hfall|done].
  - rewrite unregisterSigner_run, Hr.
    destruct (signers st !! k) as [signer|]; [|done].
    destruct (signer_provider signer); [|done]. simpl.
    destruct (providers st !! k); [done|]. simpl. by rewrite lookup_insert_ne.
  - rewrite unregisterSigner_run, Hr.
    destruct (signers st !! k) as [signer|]; [|done].
    destruct (signer_provider signer); [|done]. simpl.
    destruct (providers st !! k); simpl; by rewrite lookup_delete_ne.
Qed.

End Registry.

(** ** Signers stay attached to the registered provider *)
Section Attached.

Context {Provider Signer : Type} `{!Ethers Provider Signer} {js : JsString}.
Implicit Types st : MultiProvider Provider Signer.
Implicit Types nd : NameOrDomain.

Hypothesis connect_bound : connect_binds (Provider := Provider) (Signer := Signer).

Local Abbreviation keeps I m :=
  (preserves (Provider := Provider) (Signer := Signer) I m) (only parsing).

Lemma attached_delete st k :
  signers_attached st → signers_attached (set_signers (delete k) st).
Proof.
  intros Ha k' s. simpl. rewrite lookup_delete. case_decide; [done|apply Ha].
Qed.

Lemma attached_insert st k s p :
  signers_attached st → signer_provider s = Some p →
  signers_attached (set_providers <[k := p]> (set_signers <[k := s]> st)).
Proof.
  intros Ha Hs k' s'. simpl. rewrite !lookup_insert.
  case_decide; [intros [= <-]; by exists p|apply Ha].
Qed.

Lemma attached_provider st k p :
  signers_attached st → signers st !! k = None →
  signers_attached (set_providers <[k := p]> st).
Proof.
  intros Ha Hk k' s'. simpl. rewrite lookup_insert.
  case_decide; [subst; congruence|apply Ha].
Qed.

Lemma attached_signer st k s p :
  signers_attached st → signer_provider s = Some p → providers st !! k = Some p →
  signers_attached (set_signers <[k := s]> st).
Proof.
  intros Ha Hs Hp k' s'. simpl. rewrite lookup_insert.
  case_decide; [subst; intros [= <-]; by exists p|apply Ha].
Qed.

Lemma unregisterSigner_attached nd : keeps signers_attached (unregisterSigner nd).
Proof.
  intros st Ha. rewrite unregisterSigner_run.
  destruct (resolveDomain nd st).1 as [domain|e]; [|done].
  destruct (signers st !! domain) as [signer|]; [|done].
  destruct (signer_provider signer) as [p|]; [|done]. simpl.
  destruct (providers st !! domain).
  - by apply attached_delete.
  - apply attached_provider; [by apply attached_delete|].
    simpl. apply lookup_delete_eq.
Qed.

Lemma registerProvider_attached nd provider :
  keeps signers_attached (registerProvider nd provider).
Proof.
  intros st Ha. rewrite registerProvider_run.
  destruct (resolveDomain nd st).1 as [k|e]; [|done].
  destruct (JsMap.get k (domains st)) as [d|]; [|done].
  destruct (signers st !! id d) as [signer|] eqn:Hs.
  - destruct (connect signer provider) as [s|] eqn:Hc.
    + simpl. apply attached_insert; [done|]. by apply (connect_bound _ _ _ Hc).
    + destruct (signer_provider signer); [|done]. simpl.
      apply attached_provider; [by apply attached_delete|].
      simpl. apply lookup_delete_eq.
  - simpl. by apply attached_provider.
Qed.

Lemma registerSigner_fallback_attached domain signer :
  keeps (λ st, wf_domains st ∧ signers_attached st)
        (registerSigner_fallback domain signer).
Proof.
  intros st [Hwf Ha]. unfold registerSigner_fallback.
  destruct (signer_provider signer) as [p|] eqn:Hp; [|done].
  unfold mbind, M_bind, bind.
  pose proof (registerProvider_attached (Num domain) p st Ha) as Ha'.
  pose proof (registerProvider_domains (domains st) (Num domain) p st eq_refl) as Hd.
  pose proof (registerProvider_Num_entry domain p st) as He.
  destruct (registerProvider (Num domain) p st) as [[[]|e] st']; simpl in *.
  - split; [unfold wf_domains; simpl; by rewrite Hd|].
    apply (attached_signer _ _ _ p); [done|done|by apply He].
  - split; [unfold wf_domains; by rewrite Hd|done].
Qed.

Lemma registerSigner_attached nd signer :
  keeps (λ st, wf_domains st ∧ signers_attached st) (registerSigner nd signer).
Proof.
  intros st [Hwf Ha]. rewrite registerSigner_run.
  destruct (resolveDomain nd st).1 as [domain|e]; [|done].
  destruct (providers st !! domain) as [provider|] eqn:Hp.
  - destruct (connect signer provider) as [signer1|].
    + destruct (connect signer1 provider) as [signer2|] eqn:Hc.
      * simpl. split; [done|].
        apply (attached_signer _ _ _ provider); [done| |done].
        by apply (connect_bound _ _ _ Hc).
      * by apply registerSigner_fallback_attached.
    + by apply registerSigner_fallback_attached.
  - destruct (signer_provider signer); [|done].
    by apply registerSigner_fallback_attached.
Qed.

Lemma call_attached op :
  keeps (λ st, wf_domains st ∧ signers_attached st) (call op).
Proof.
  assert (∀ A (m : M A),
            keeps signers_attached m →
            (∀ ds, keeps (λ st, domains st = ds) m) →
            keeps (λ st, wf_domains st ∧ signers_attached st) m) as Hboth.
  { intros A m Ha Hd st [Hwf Hat]. split; [|by apply Ha].
    unfold wf_domains. by rewrite (Hd (domains st) st). }
  destruct op as [d|nd p|nd rpc|nd s|nd k| nd| |nd o|nd c]; simpl.
  - intros st [Hwf Ha]. split; [|done].
    unfold wf_domains in *. simpl. rewrite Forall_forall in *.
    intros kd [->|Hin]%JsMapFacts.elem_of_set; [done|by apply Hwf].
  - apply Hboth; [apply registerProvider_attached|].
    intros ds. apply registerProvider_domains.
  - apply preserves_bind; [apply preserves_resolveDomain|].
    intros domain. destruct (existsb _ _);
      (apply Hboth; [apply registerProvider_attached|];
       intros ds; apply registerProvider_domains).
  - apply registerSigner_attached.
  - apply preserves_bind; [apply preserves_resolveDomain|].
    intros domain. destruct (Wallet k); [|by intros st].
    apply registerSigner_attached.
  - apply Hboth; [apply unregisterSigner_attached|].
    intros ds. apply unregisterSigner_domains.
  - apply preserves_bind; [by intros st|].
    intros numbers. apply preserves_forEach. intros domain.
    apply Hboth; [apply unregisterSigner_attached|].
    intros ds. apply unregisterSigner_domains.
  - apply preserves_bind; [apply preserves_resolveDomain|]. by intros k st.
  - apply preserves_bind; [apply preserves_resolveDomain|]. by intros k st.
Qed.

Lemma reachable_attached st :
  reachable st → wf_domains st ∧ signers_attached st.
Proof.
  induction 1 as [|st op _ IH]; [|by apply call_attached].
  split; [apply Forall_nil_2|]. intros k s. simpl. by rewrite lookup_empty.
Qed.

(** X19.  With signers whose [connect] returns a signer attached to the
    given provider, every signer stored in a reachable registry carries
    exactly the provider registered for its domain: [getSigner(d).provider]
    is [getProvider(d)]. *)
Theorem reachable_signers_attached st :
  reachable st →
  ∀ d s, getSigner (Num d) st = (Ok (Some s), st) →
         ∃ p, signer_provider s = Some p
              ∧ getProvider (Num d) st = (Ok (Some p), st)
              ∧ providers st !! d = Some p.
Proof.
  intros [_ Ha]%reachable_attached d s.
  unfold getSigner, getProvider. rewrite !getFromMap_run. simpl.
  unfold signers_get, providers_get. intros [= Hs].
  destruct (Ha d s Hs) as (p & Hp & Hd). exists p. by rewrite Hd.
Qed.

(** X20.  With signers whose [connect] returns a signer attached to the
    given provider, in a reachable registry [unregisterSigner] on a
    reference that resolves always succeeds (the [InvariantViolation] throw is never
    reached); afterwards the domain has no signer and the provider it
    had.  The only error left is [DomainNotFound]. *)
Theorem unregisterSigner_succeeds nd st :
  reachable st →
  (∀ k, (resolveDomain nd st).1 = Ok k →
        ∃ st', unregisterSigner nd st = (Ok (), st')
               ∧ getSigner nd st' = (Ok None, st')
               ∧ getProvider nd st' = (Ok (providers st !! k), st'))
  ∧ (∀ e, (unregisterSigner nd st).1 = Throw e → e = DomainNotFound nd).
Proof.
  intros [_ Ha]%reachable_attached. rewrite unregisterSigner_run. split.
  - intros k Hr. rewrite Hr. unfold getSigner, getProvider.
    destruct (signers st !! k) as [s|] eqn:Hs.
    + destruct (Ha k s Hs) as (p & -> & Hp). rewrite Hp.
      eexists. split; [done|]. rewrite !getFromMap_run.
      rewrite (resolveDomain_ext nd _ st) by done. rewrite Hr.
      unfold signers_get, providers_get. simpl.
      by rewrite lookup_delete_eq, Hp.
    + eexists. split; [done|]. rewrite !getFromMap_run, Hr.
      unfold signers_get, providers_get. by rewrite Hs.
  - intros e. destruct (resolveDomain nd st).1 as [k|e'] eqn:Hr.
    + destruct (signers st !! k) as [s|] eqn:Hs; [|done].
      by destruct (Ha k s Hs) as (p & -> & _).
    + intros [= <-]. by apply (resolveDomain_error nd st).
Qed.

(** X21.  With signers whose [connect] returns a signer attached to the
    given provider, in a reachable registry [registerProvider] succeeds
    exactly when the reference resolves to a registered domain number, and then
    [getProvider] returns the new provider; otherwise it throws
    [DomainNotFound] (a name that does not resolve) or [NotFound "Domain"]
    (a number that is not registered) and changes nothing. *)
Theorem registerProvider_succeeds_iff nd provider st :
  reachable st →
  ((∃ st', registerProvider nd provider st = (Ok (), st')
           ∧ getProvider nd st' = (Ok (Some provider), st'))
   ↔ ∃ k, (resolveDomain nd st).1 = Ok k ∧ k ∈ domainNumbers st)
  ∧ (∀ e st', registerProvider nd provider st = (Throw e, st') →
              st' = st ∧ (e = DomainNotFound nd ∨ e = NotFound "Domain" nd)).
Proof.
  intros Hr. destruct (reachable_attached st Hr) as [Hwf Ha].
  assert (∀ k, (resolveDomain nd st).1 = Ok k → k ∈ domainNumbers st →
            ∃ st', registerProvider nd provider st = (Ok (), st')) as Hok.
  { intros k Hk [d Hd]%JsMapFacts.get_is_Some.
    rewrite registerProvider_run, Hk, Hd.
    destruct (signers st !! id d) as [s|] eqn:Hs; [|by eexists].
    destruct (connect s provider); [by eexists|].
    destruct (Ha _ s Hs) as (p & -> & _). by eexists. }
  split.
  - split.
    + intros (st' & Hrun & _).
      destruct (registerProvider_ok _ _ _ _ Hwf Hrun) as (k & Hk & Hd & _).
      exists k. split; [done|]. by apply JsMapFacts.get_is_Some.
    + intros (k & Hk & Hin). destruct (Hok k Hk Hin) as [st' Hrun].
      exists st'. split; [done|].
      destruct (registerProvider_ok _ _ _ _ Hwf Hrun) as (k' & Hk' & _ & Hd & Hp).
      unfold getProvider. rewrite getFromMap_run.
      rewrite (resolveDomain_ext nd st' st) by done. rewrite Hk'.
      unfold providers_get. by rewrite Hp, lookup_insert_eq.
  - intros e st'. rewrite registerProvider_run.
    destruct (resolveDomain nd st).1 as [k|e'] eqn:Hk.
    + destruct (JsMap.get k (domains st)) as [d|]; [|intros [= <- <-]; auto].
      destruct (signers st !! id d) as [s|] eqn:Hs; [|done].
      destruct (connect s provider); [done|].
      by destruct (Ha _ s Hs) as (p & -> & _).
    + intros [= <- <-]. split; [done|]. left.
      by apply (resolveDomain_error nd st).
Qed.

(** X22.  With signers whose [connect] returns a signer attached to the
    given provider, a successful [registerSigner(d, S)] on a reachable
    registry leaves a signer for the domain that is attached to the domain's provider: [S]
    itself, or [S] bound (once or twice) to the provider that was
    registered. *)
Theorem registerSigner_postcondition nd S st st' :
  reachable st →
  registerSigner nd S st = (Ok (), st') →
  ∃ s' p, getSigner nd st' = (Ok (Some s'), st')
          ∧ getProvider nd st' = (Ok (Some p), st')
          ∧ signer_provider s' = Some p
          ∧ (s' = S
             ∨ ∃ P S1, connect S P = Some S1
                       ∧ (s' = S1 ∨ connect S1 P = Some s')).
Proof.
  intros Hr Hrun.
  assert (reachable st') as Hr'.
  { replace st' with (call (RegisterSigner nd S) st).2; [by constructor|].
    simpl. by rewrite Hrun. }
  destruct (reachable_attached st' Hr') as [_ Ha'].
  assert (domains st' = domains st) as Hd.
  { pose proof (registerSigner_domains (domains st) nd S st eq_refl) as H.
    by rewrite Hrun in H. }
  assert (∀ domain S0, registerSigner_fallback domain S0 st = (Ok (), st') →
                       signers st' !! domain = Some S0) as Hfall.
  { intros domain S0. unfold registerSigner_fallback, mbind, M_bind, bind.
    destruct (signer_provider S0) as [p|]; [|done].
    destruct (registerProvider (Num domain) p st) as [[[]|e] st1]; [|done].
    intros [= <-]. simpl. apply lookup_insert_eq. }
  assert (∃ k s', (resolveDomain nd st).1 = Ok k ∧ signers st' !! k = Some s'
                  ∧ (s' = S ∨ ∃ P S1, connect S P = Some S1
                                      ∧ (s' = S1 ∨ connect S1 P = Some s')))
    as (k & s' & Hk & Hs' & Hform).
  { revert Hrun. rewrite registerSigner_run.
    destruct (resolveDomain nd st).1 as [k|e]; [|done].
    destruct (providers st !! k) as [P|].
    - destruct (connect S P) as [S1|] eqn:H1.
      + destruct (connect S1 P) as [S2|] eqn:H2.
        * intros [= <-]. exists k, S2. split_and!; [done| |].
          -- simpl. apply lookup_insert_eq.
          -- right. exists P, S1. auto.
        * intros Hf%Hfall. exists k, S1. split_and!; [done|done|].
          right. exists P, S1. auto.
      + intros Hf%Hfall. exists k, S. auto.
    - destruct (signer_provider S); [|done].
      intros Hf%Hfall. exists k, S. auto. }
  destruct (Ha' k s' Hs') as (p & Hp & Hpk).
  exists s', p. unfold getSigner, getProvider. rewrite !getFromMap_run.
  rewrite (resolveDomain_ext nd st' st) by done. rewrite Hk.
  unfold signers_get, providers_get. by rewrite Hs', Hpk.
Qed.

End Attached.

(** ** The further properties on the example registries *)
Section MoreWitnesses.

Import EthersModel Scenario.

#[local] Existing Instance ascii_strings.

Lemma alpha_with_S_reachable : reachable alpha_with_S.
Proof. apply reachable_after, reachable_after, reachable_new. Defined.

Lemma two_alphas_reachable : reachable two_alphas.
Proof. apply reachable_after, reachable_new. Defined.

Lemma registerDomain_domainNumbers_witness :
  domainNumbers (registerDomain Alpha2 alpha_with_S).2 = [1; 2]
  ∧ domainNumbers (registerDomain {| id := 1; name := "beta" |} alpha_with_S).2 = [1].
Proof.
  split.
  - apply (registerDomain_domainNumbers Alpha2 alpha_with_S).
    vm_compute. intros [?|?]%elem_of_cons; [done|by apply elem_of_nil in H].
  - apply (registerDomain_domainNumbers {| id := 1; name := "beta" |} alpha_with_S).
    apply list_elem_of_here.
Defined.

Lemma reachable_domainNumbers_NoDup_witness : NoDup (domainNumbers two_alphas).
Proof. apply (reachable_domainNumbers_NoDup two_alphas two_alphas_reachable). Defined.

Lemma remoteDomainNumbers_spec_witness :
  (1 ∉ remoteDomainNumbers 1 two_alphas)
  ∧ domainNumbers two_alphas ≡ₚ 1 :: remoteDomainNumbers 1 two_alphas.
Proof.
  destruct (remoteDomainNumbers_spec 1 two_alphas two_alphas_reachable)
    as (Hnot & _ & _ & Hin).
  split; [exact Hnot|]. apply Hin, list_elem_of_here.
Defined.

Lemma domainNames_resolve_witness :
  ∃ k D, resolveDomain (Name "Alpha") two_alphas = (Ok k, two_alphas)
         ∧ mustGetDomain (Name "Alpha") two_alphas = (Ok D, two_alphas)
         ∧ id D = k.
Proof.
  destruct (domainNames_resolve two_alphas two_alphas_reachable) as [_ H].
  destruct (H "Alpha") as (k & D & Hk & _ & HD & Hid & _).
  { apply list_elem_of_further, list_elem_of_here. }
  exists k, D. split_and!; [exact Hk|exact HD|exact Hid].
Defined.

Lemma resolveDomain_case_insensitive_witness :
  knownDomain (Name "ALPHA") two_alphas = knownDomain (Name "alpha") two_alphas.
Proof.
  apply (resolveDomain_case_insensitive "ALPHA" "alpha" two_alphas). reflexivity.
Defined.

Lemma resolveDomainName_spec_witness :
  ∃ n, resolveDomainName (Name "ALPHA") two_alphas = (Ok (Some n), two_alphas)
       ∧ toLowerCase n = "alpha".
Proof.
  destruct (resolveDomainName_spec (Name "ALPHA") two_alphas) as (_ & _ & H).
  destruct (H two_alphas_reachable "ALPHA" 1) as (n & Hn & _ & Hl);
    [reflexivity|reflexivity|].
  exists n. split; [exact Hn|exact Hl].
Defined.

Lemma mustGetFromMap_spec_witness :
  mustGetFromMap number_truthy (Num 1) confirmations_get "Confirmations"
    (after [RegisterConfirmations (Num 1) 0] alpha_with_S)
  = (Throw (NotFound "Confirmations" (Num 1)),
     after [RegisterConfirmations (Num 1) 0] alpha_with_S)
  ∧ mustGetFromMap object_truthy (Name "Alpha") signers_get "Signer" alpha_with_S
    = (Ok S, alpha_with_S).
Proof.
  split.
  - destruct (mustGetFromMap_spec number_truthy (Num 1) confirmations_get
                "Confirmations"
                (after [RegisterConfirmations (Num 1) 0] alpha_with_S))
      as (_ & Hthrow & _).
    apply Hthrow. right. exists 0. split; reflexivity.
  - destruct (mustGetFromMap_spec (object_truthy (T := signer)) (Name "Alpha")
                signers_get "Signer" alpha_with_S) as (_ & _ & _ & Hobj).
    apply Hobj. reflexivity.
Defined.

Lemma getConnection_spec_witness :
  getConnection (Name "alpha") alpha_with_S = (Ok (Some (inl S)), alpha_with_S)
  ∧ getConnection (Name "alpha") alpha_with_P = (Ok (Some (inr P)), alpha_with_P).
Proof.
  split.
  - destruct (getConnection_spec (Name "alpha") 1 alpha_with_S) as (Hs & _);
      [reflexivity|].
    apply (Hs S). reflexivity.
  - destruct (getConnection_spec (Name "alpha") 1 alpha_with_P) as (_ & Hp & _);
      [reflexivity|].
    apply (Hp P); reflexivity.
Defined.

Lemma policy_round_trip_witness :
  ∃ st' : Registry,
    registerConfirmations (Name "Alpha") 0 alpha_with_S = (Ok (), st')
    ∧ getConfirmations (Name "Alpha") st' = (Ok 0, st').
Proof.
  destruct (policy_round_trip (Name "Alpha") alpha_with_S) as [H _].
  destruct (H 1) as [_ Hc]; [reflexivity|].
  destruct (Hc 0) as (st' & Hrun & Hget & _).
  exists st'. split; [exact Hrun|exact Hget].
Defined.

Lemma registerRpcProvider_spec_witness :
  let celo := after [RegisterDomain {| id := 42220; name := "celo" |}]
                (new : Registry) in
  registerRpcProvider (Name "celo") "https://forno.celo.org" celo
    = registerProvider (Name "celo") (CeloJsonRpcProvider "https://forno.celo.org") celo
  ∧ registerRpcProvider (Name "Celo") "https://forno.celo.org" celo
    = registerProvider (Name "Celo") (JsonRpcProvider "https://forno.celo.org") celo.
Proof.
  intros celo.
  assert (wf_domains celo) as Hwf
    by (apply Forall_cons; split; [reflexivity|apply Forall_nil_2]).
  split.
  - destruct (registerRpcProvider_spec (Name "celo") "https://forno.celo.org"
                celo Hwf) as (Heq & Hcelo & _).
    rewrite Heq, Hcelo; [reflexivity|by right].
  - destruct (registerRpcProvider_spec (Name "Celo") "https://forno.celo.org"
                celo Hwf) as (Heq & _ & Hplain & _).
    rewrite Heq, Hplain; [reflexivity|discriminate|discriminate].
Defined.

Lemma registerWalletSigner_spec_witness :
  registerWalletSigner (Num 1) "0xkey" alpha_with_P = registerSigner (Num 1) W alpha_with_P
  ∧ registerWalletSigner (Num 1) "" alpha_with_P = (Throw WalletFailed, alpha_with_P).
Proof.
  split.
  - destruct (registerWalletSigner_spec (Num 1) "0xkey" alpha_with_P) as (H & _).
    apply H. reflexivity.
  - destruct (registerWalletSigner_spec (Num 1) "" alpha_with_P) as (_ & H & _).
    apply (H 1); reflexivity.
Defined.

Lemma throw_leaves_state_witness :
  (call (RegisterProvider (Num 9) P2) alpha_with_S).2 = alpha_with_S.
Proof.
  apply (throw_leaves_state (RegisterProvider (Num 9) P2) alpha_with_S
           (NotFound "Domain" (Num 9))); [discriminate|reflexivity].
Defined.

Lemma reachable_entries_registered_witness :
  1 ∈ domainNumbers alpha_with_S
  ∧ (1 ∈ missingProviders alpha_with_S ↔ is_Some (providers alpha_with_S !! 1)).
Proof.
  destruct (reachable_entries_registered alpha_with_S alpha_with_S_reachable)
    as (Hp & _ & Hm).
  split; [|apply Hm]. apply Hp. by eexists.
Defined.

Lemma unregisterSigner_keeps_providers_witness :
  providers (unregisterSigner (Name "alpha") alpha_with_S).2 = providers alpha_with_S.
Proof.
  apply (unregisterSigner_keeps_providers (Name "alpha") alpha_with_S
           alpha_with_S_reachable).
Defined.

Lemma connection_calls_isolated_witness :
  providers (registerProvider (Name "alpha") P2 two_alphas).2 !! 2
    = providers two_alphas !! 2.
Proof.
  assert (wf_domains two_alphas) as Hwf.
  { apply Forall_cons; split; [reflexivity|].
    apply Forall_cons; split; [reflexivity|apply Forall_nil_2]. }
  destruct (connection_calls_isolated (js := ascii_strings)
              (Name "alpha") 1 two_alphas Hwf eq_refl 2)
    as (Hp & _); [discriminate|].
  apply Hp.
Defined.

Lemma reachable_signers_attached_witness :
  ∃ p, signer_provider S = Some p
       ∧ getProvider (Num 1) alpha_with_S = (Ok (Some p), alpha_with_S).
Proof.
  destruct (reachable_signers_attached ethers_connect_binds alpha_with_S
              alpha_with_S_reachable 1 S) as (p & Hp & Hg & _); [reflexivity|].
  exists p. split; [exact Hp|exact Hg].
Defined.

Lemma unregisterSigner_succeeds_witness :
  ∃ st' : Registry,
    unregisterSigner (Name "ALPHA") alpha_with_S = (Ok (), st')
    ∧ getSigner (Name "ALPHA") st' = (Ok None, st').
Proof.
  destruct (unregisterSigner_succeeds ethers_connect_binds (Name "ALPHA")
              alpha_with_S alpha_with_S_reachable) as [H _].
  destruct (H 1) as (st' & Hrun & Hs & _); [reflexivity|].
  exists st'. split; [exact Hrun|exact Hs].
Defined.

Lemma registerProvider_succeeds_iff_witness :
  ∃ st' : Registry,
    registerProvider (Name "Alpha") P2 alpha_with_S = (Ok (), st')
    ∧ getProvider (Name "Alpha") st' = (Ok (Some P2), st').
Proof.
  destruct (registerProvider_succeeds_iff ethers_connect_binds (Name "Alpha") P2
              alpha_with_S alpha_with_S_reachable) as [[_ H] _].
  apply H. exists 1. split; [reflexivity|apply list_elem_of_here].
Defined.

Lemma registerSigner_postcondition_witness :
  ∃ s' p, getSigner (Num 1) (registerSigner (Num 1) W alpha_with_P).2
            = (Ok (Some s'), (registerSigner (Num 1) W alpha_with_P).2)
          ∧ signer_provider s' = Some p.
Proof.
  destruct (registerSigner_postcondition ethers_connect_binds (Num 1) W
              alpha_with_P (registerSigner (Num 1) W alpha_with_P).2)
    as (s' & p & Hs & _ & Hp & _).
  - apply reachable_after, reachable_new.
  - reflexivity.
  - exists s', p. split; [exact Hs|exact Hp].
Defined.

End MoreWitnesses.
